(** * CacheCatalyst gallery script ([shell.py]): a shallow embedding

    The script seeds a media directory with placeholder pictures
    ([download_dataset]), lists every regular file below the directory
    ([get_paths]) and renders [index.html] from [template.html]
    ([compile_template]).  The embedding models

    - Python [str] as [string], with [str.replace], [str.split] and
      [str.join] written out;
    - [posixpath.join], [posixpath.normpath] and [os.path.abspath];
    - the file system as a table of inodes (regular files and directories)
      reached by path resolution; a directory entry may point at any inode,
      which is how a symbolic link to a directory looks through [os.listdir]
      and [os.path.isfile], both of which follow links;
    - effects (file system, spawned processes, standard output, renderer
      calls) by a state-and-exception monad over a [world] record;
    - the unbounded recursion of [get_paths] with a fuel argument; running
      out of fuel is the outcome [Diverge].

    The interpreter's recursion limit and the kernel's limits on path length
    and link depth are not modelled. *)

From Stdlib Require Import ZArith Ascii String DecimalString DecimalZ Lia.
From stdpp Require Import list strings.

Set Default Proof Using "Type".
Set Warnings "-register-all".

(** ** Python strings *)

Definition sep : ascii := "/"%char.

(** [s.startswith(p)] *)
Definition str_startswith (s p : string) : bool := String.prefix p s.

(** [s.endswith("/")] *)
Fixpoint str_endswith_sep (s : string) : bool :=
  match s with
  | EmptyString => false
  | String c EmptyString => bool_decide (c = sep)
  | String _ s' => str_endswith_sep s'
  end.

(** [s[n:]] *)
Fixpoint str_drop (n : nat) (s : string) : string :=
  match n, s with
  | S n', String _ s' => str_drop n' s'
  | _, _ => s
  end.

(** [s.find(old)], with [None] for Python's [-1]. *)
Fixpoint str_find (old s : string) : option nat :=
  if String.prefix old s then Some 0
  else match s with
       | EmptyString => None
       | String _ s' => S <$> str_find old s'
       end.

(** The scanning loop of [str.replace] for a non-empty [old]: [skip] counts
    the characters of a match that are still to be passed over, so a match
    is only looked for where the previous one has ended. *)
Fixpoint replace_scan (old new : string) (skip : nat) (s : string) : string :=
  match s with
  | EmptyString => EmptyString
  | String c s' =>
      match skip with
      | S k => replace_scan old new k s'
      | 0 =>
          if String.prefix old s
          then new +:+ replace_scan old new (String.length old - 1) s'
          else String c (replace_scan old new 0 s')
      end
  end.

(** With an empty [old], Python puts [new] before every character and at
    the end. *)
Fixpoint replace_empty (new s : string) : string :=
  match s with
  | EmptyString => new
  | String c s' => new +:+ String c (replace_empty new s')
  end.

(** [s.replace(old, new)] *)
Definition str_replace (s old new : string) : string :=
  match old with
  | EmptyString => replace_empty new s
  | _ => replace_scan old new 0 s
  end.

(** [s.split("/")] *)
Fixpoint str_split_sep (s : string) : list string :=
  match s with
  | EmptyString => [EmptyString]
  | String c s' =>
      if bool_decide (c = sep) then EmptyString :: str_split_sep s'
      else match str_split_sep s' with
           | f :: fs => String c f :: fs
           | [] => [String c EmptyString]
           end
  end.

(** ["/".join(comps)] *)
Fixpoint str_join_sep (comps : list string) : string :=
  match comps with
  | [] => EmptyString
  | [c] => c
  | c :: rest => c +:+ "/" +:+ str_join_sep rest
  end.

(** [str(i)] for an [int]. *)
Definition str_of_int (i : Z) : string := NilEmpty.string_of_int (Z.to_int i).

(** ** [posixpath] *)

Definition os_path_isabs (p : string) : bool := str_startswith p "/".

(** [os.path.join(a, b)] *)
Definition os_path_join (a b : string) : string :=
  if str_startswith b "/" then b
  else if bool_decide (a = EmptyString) || str_endswith_sep a then a +:+ b
  else a +:+ "/" +:+ b.

Definition normpath_step (initial_slashes : nat) (new_comps : list string)
    (comp : string) : list string :=
  if bool_decide (comp = EmptyString) || bool_decide (comp = ".") then new_comps
  else if negb (bool_decide (comp = ".."))
          || (bool_decide (initial_slashes = 0) && bool_decide (new_comps = []))
          || (negb (bool_decide (new_comps = []))
              && bool_decide (last new_comps = Some ".."))
  then new_comps ++ [comp]
  else if negb (bool_decide (new_comps = [])) then removelast new_comps
  else new_comps.

(** [os.path.normpath(path)] *)
Definition os_path_normpath (path : string) : string :=
  if bool_decide (path = EmptyString) then "."
  else
    let initial_slashes :=
      if str_startswith path "/" then
        if str_startswith path "//" && negb (str_startswith path "///")
        then 2 else 1
      else 0 in
    let comps := foldl (normpath_step initial_slashes) [] (str_split_sep path) in
    let path := str_join_sep comps in
    let path :=
      match initial_slashes with
      | 0 => path
      | 1 => "/" +:+ path
      | _ => "//" +:+ path
      end in
    if bool_decide (path = EmptyString) then "." else path.

(** ** Outcomes, exceptions and template data *)

Inductive exn :=
  | FileNotFoundError
  | NotADirectoryError
  | IsADirectoryError
  | FileExistsError
  | TypeError
  | TemplateNotFound
  | TemplateError.

(** What a call does: return, raise, or recurse without end. *)
Inductive result (A : Type) :=
  | Ok (a : A)
  | Raise (e : exn)
  | Diverge.
Arguments Ok {A} a.
Arguments Raise {A} e.
Arguments Diverge {A}.

(** The values handed to the template: [str], [list] and [dict]. *)
Inductive pyval :=
  | PStr (s : string)
  | PList (items : list pyval)
  | PDict (fields : list (string * pyval)).

(** ** The file system *)

(** An inode is a regular file with its contents or a directory with its
    entries in listing order.  Inode [0] is the root directory. *)
Inductive inode :=
  | IFile (data : string)
  | IDir (entries : list (string * nat)).

Abbreviation filesystem := (list inode).

Fixpoint dir_lookup (entries : list (string * nat)) (name : string) : option nat :=
  match entries with
  | [] => None
  | (n, i) :: rest => if bool_decide (n = name) then Some i else dir_lookup rest name
  end.

(** Follow the components of a path from inode [cur]. *)
Fixpoint walk (fs : filesystem) (cur : nat) (comps : list string) : option nat :=
  match comps with
  | [] => Some cur
  | c :: rest =>
      match fs !! cur with
      | Some (IDir es) =>
          match dir_lookup es c with
          | Some i => walk fs i rest
          | None => None
          end
      | _ => None
      end
  end.

Definition is_component (c : string) : bool :=
  negb (bool_decide (c = EmptyString) || bool_decide (c = ".")).

(** The components the kernel looks up: empty ones and ["."] are skipped.
    [".."] is looked up like a name and never found; the script resolves only
    normalised paths extended by listed names, which contain none. *)
Definition components (p : string) : list string :=
  filter (λ c, is_component c = true) (str_split_sep p).

Definition full_path (cwd p : string) : string :=
  if os_path_isabs p then p else cwd +:+ "/" +:+ p.

Definition resolve (fs : filesystem) (cwd p : string) : option nat :=
  if bool_decide (p = EmptyString) then None
  else walk fs 0 (components (full_path cwd p)).

Definition stat (fs : filesystem) (cwd p : string) : option inode :=
  match resolve fs cwd p with
  | Some i => fs !! i
  | None => None
  end.

Definition os_path_exists (fs : filesystem) (cwd p : string) : bool :=
  match stat fs cwd p with Some _ => true | None => false end.

Definition os_path_isfile (fs : filesystem) (cwd p : string) : bool :=
  match stat fs cwd p with Some (IFile _) => true | _ => false end.

Definition os_listdir (fs : filesystem) (cwd p : string) : result (list string) :=
  match stat fs cwd p with
  | Some (IDir es) => Ok (map fst es)
  | Some (IFile _) => Raise NotADirectoryError
  | None => Raise FileNotFoundError
  end.

(** The directory a new entry of path [p] goes into, and the entry's name. *)
Definition parent_and_name (fs : filesystem) (cwd p : string)
    : option (nat * list (string * nat) * string) :=
  let comps := components (full_path cwd p) in
  match last comps with
  | None => None
  | Some name =>
      match walk fs 0 (removelast comps) with
      | Some d =>
          match fs !! d with
          | Some (IDir es) => Some (d, es, name)
          | _ => None
          end
      | None => None
      end
  end.

(** [os.mkdir(p)]: the new directory gets the next free inode and is
    entered last in its parent. *)
Definition fs_mkdir (fs : filesystem) (cwd p : string) : result filesystem :=
  match stat fs cwd p with
  | Some _ => Raise FileExistsError
  | None =>
      if bool_decide (p = EmptyString) then Raise FileNotFoundError
      else match parent_and_name fs cwd p with
           | Some (d, es, name) =>
               Ok (<[d := IDir (es ++ [(name, length fs)])]> fs ++ [IDir []])
           | None => Raise FileNotFoundError
           end
  end.

(** [with open(p, "w") as f: f.write(data)]: an existing regular file is
    overwritten in place, a missing one is created. *)
Definition fs_write (fs : filesystem) (cwd p data : string) : result filesystem :=
  if bool_decide (p = EmptyString) then Raise FileNotFoundError
  else match parent_and_name fs cwd p with
       | Some (d, es, name) =>
           match dir_lookup es name with
           | Some i =>
               match fs !! i with
               | Some (IFile _) => Ok (<[i := IFile data]> fs)
               | Some (IDir _) => Raise IsADirectoryError
               | None => Raise FileNotFoundError
               end
           | None =>
               Ok (<[d := IDir (es ++ [(name, length fs)])]> fs ++ [IFile data])
           end
       | None =>
           match stat fs cwd p with
           | Some (IDir _) => Raise IsADirectoryError
           | _ => Raise FileNotFoundError
           end
       end.

Definition fs_read (fs : filesystem) (cwd p : string) : result string :=
  match stat fs cwd p with
  | Some (IFile data) => Ok data
  | Some (IDir _) => Raise IsADirectoryError
  | None => Raise FileNotFoundError
  end.

(** [os.path.abspath(path)]; [None] is what [argparse] leaves for an option
    that was not given, and [os.fspath(None)] raises [TypeError]. *)
Definition os_path_abspath (cwd : string) (path : option string) : result string :=
  match path with
  | None => Raise TypeError
  | Some path =>
      Ok (os_path_normpath (if os_path_isabs path then path
                            else os_path_join cwd path))
  end.

(** ** The world and its monad *)

Record world := World {
  inodes : filesystem;
  cwd : string;                       (* [os.getcwd()] *)
  procs : list (list string);         (* argument vectors spawned, in order *)
  stdout : list string;               (* lines printed *)
  renders : list (string * pyval);    (* template source and data rendered *)
}.

Definition M (A : Type) : Type := world → result A * world.

Definition ret {A} (a : A) : M A := λ w, (Ok a, w).

Definition bind {A B} (m : M A) (k : A → M B) : M B :=
  λ w, match m w with
       | (Ok a, w') => k a w'
       | (Raise e, w') => (Raise e, w')
       | (Diverge, w') => (Diverge, w')
       end.

Notation "'let!' x ':=' m 'in' k" := (bind m (λ x, k))
  (at level 10, x name, m at level 100, k at level 200).
Notation "m ;;; k" := (bind m (λ _, k))
  (at level 100, k at level 200, right associativity, format "m  ;;;  '/' k").

(** Run a query on the file system. *)
Definition ask {A} (q : filesystem → string → result A) : M A :=
  λ w, (q (inodes w) (cwd w), w).

(** Run an update of the file system; a failed update changes nothing. *)
Definition update (u : filesystem → string → result filesystem) : M unit :=
  λ w, match u (inodes w) (cwd w) with
       | Ok fs' => (Ok tt, World fs' (cwd w) (procs w) (stdout w) (renders w))
       | Raise e => (Raise e, w)
       | Diverge => (Diverge, w)
       end.

Definition print (line : string) : M unit :=
  λ w, (Ok tt, World (inodes w) (cwd w) (procs w) (stdout w ++ [line]) (renders w)).

Fixpoint for_each {A} (items : list A) (body : A → M unit) : M unit :=
  match items with
  | [] => ret tt
  | x :: rest => body x ;;; for_each rest body
  end.

(** [range(count)] *)
Definition range (count : Z) : list Z := map Z.of_nat (seq 0 (Z.to_nat count)).

(** ** The script *)

(** [get_paths]: the body of the [for] loop, with the recursive call passed
    in as [recurse]. *)
Fixpoint get_paths_loop (isfile : string → bool)
    (recurse : string → result (list string)) (root_dir : string)
    (files : list string) (output : list string) : result (list string) :=
  match files with
  | [] => Ok output
  | file :: files =>
      let fp := os_path_join root_dir file in
      if isfile fp then
        get_paths_loop isfile recurse root_dir files (output ++ [fp])
      else
        match recurse fp with
        | Ok sub => get_paths_loop isfile recurse root_dir files (output ++ sub)
        | Raise e => Raise e
        | Diverge => Diverge
        end
  end.

Fixpoint get_paths (fuel : nat) (fs : filesystem) (cwd root_dir : string)
    : result (list string) :=
  match fuel with
  | 0 => Diverge
  | S fuel =>
      match os_listdir fs cwd root_dir with
      | Ok files =>
          get_paths_loop (os_path_isfile fs cwd) (get_paths fuel fs cwd)
            root_dir files []
      | Raise e => Raise e
      | Diverge => Diverge
      end
  end.

(** The result of [parser.parse_args()]. *)
Record Namespace := Args {
  arg_media_dir : option string;   (* [-media-dir], [None] when not given *)
  arg_init_dataset : Z;            (* [-init-dataset], default 0 *)
  arg_prefix : string;             (* [-prefix], default [""] *)
}.

(** The pictures handed to the template (lines 52 to 56 of the script). *)
Definition build_pictures (prefix media_dir : string) (pictures : list string)
    : list pyval :=
  if negb (bool_decide (prefix = EmptyString)) then
    map (λ picture,
           PDict [("key", PStr (str_replace picture (media_dir +:+ "/") prefix))])
        pictures
  else map PStr pictures.

Definition exit_status {A} (r : result A) : option Z :=
  match r with
  | Ok _ => Some 0%Z
  | Raise _ => Some 1%Z
  | Diverge => None
  end.

Section Script.
(** The outside world: what a URL answers ([None] when the transfer fails)
    and what the template engine makes of a template source and its data. *)
Variable fetch : string → option string.
Variable jinja_render : string → pyval → result string.

(** [curl -sL url --output out] and its exit status: the body is written to
    [out] when the transfer succeeds; nothing is written when it fails. *)
Definition curl (url out : string) (fs : filesystem) (cwd : string)
    : filesystem * Z :=
  match fetch url with
  | Some body =>
      match fs_write fs cwd out body with
      | Ok fs' => (fs', 0%Z)
      | _ => (fs, 23%Z)
      end
  | None => (fs, 6%Z)
  end.

(** [subprocess.run(args)] returns the exit status without looking at it
    ([check] is off).  [curl] is the one program installed. *)
Definition subprocess_run (args : list string) : M Z :=
  λ w,
    match args with
    | [prog; flags; url; opt; out] =>
        if bool_decide (prog = "curl" ∧ flags = "-sL" ∧ opt = "--output") then
          let '(fs', returncode) := curl url out (inodes w) (cwd w) in
          (Ok returncode,
           World fs' (cwd w) (procs w ++ [args]) (stdout w) (renders w))
        else (Raise FileNotFoundError, w)
    | _ => (Raise FileNotFoundError, w)
    end.

(** [env.get_template(src)] with [FileSystemLoader(searchpath=".")] *)
Definition get_template (src : string) : M string :=
  ask (λ fs cwd,
         let filename := os_path_join "." src in
         if os_path_isfile fs cwd filename then fs_read fs cwd filename
         else Raise TemplateNotFound).

(** [template.render(data)] *)
Definition render (template : string) (data : pyval) : M string :=
  λ w, (jinja_render template data,
        World (inodes w) (cwd w) (procs w) (stdout w)
              (renders w ++ [(template, data)])).

Definition compile_template (src output : string) (data : pyval) : M unit :=
  let! template := get_template src in
  let! outputText := render template data in
  update (λ fs cwd, fs_write fs cwd output outputText).

Definition curl_args (to : string) (i : Z) : list string :=
  ["curl"; "-sL";
   "https://picsum.photos/1920/1080/?random=" +:+ str_of_int i;
   "--output";
   to +:+ "/" +:+ str_of_int i +:+ ".jpg"].

Definition download_dataset (to : string) (count : Z) : M unit :=
  for_each (range count) (λ i, subprocess_run (curl_args to i) ;;; ret tt).

Definition main (fuel : nat) (args : Namespace) : M unit :=
  let! media_dir := ask (λ _ cwd, os_path_abspath cwd (arg_media_dir args)) in
  let! present := ask (λ fs cwd, Ok (os_path_exists fs cwd media_dir)) in
  (if negb present then
     print "Media directory does not exist. Creating..." ;;;
     update (λ fs cwd, fs_mkdir fs cwd media_dir)
   else ret tt) ;;;
  (if (0 <? arg_init_dataset args)%Z then
     download_dataset media_dir (arg_init_dataset args)
   else ret tt) ;;;
  let! pictures := ask (λ fs cwd, get_paths fuel fs cwd media_dir) in
  let pictures := build_pictures (arg_prefix args) media_dir pictures in
  let dst := os_path_join media_dir "index.html" in
  compile_template "template.html" dst (PDict [("pictures", PList pictures)]).
End Script.

(** *** A small run *)

(** A template engine for examples: the template source followed by the
    strings of the data in order. *)
Fixpoint show_pyval (v : pyval) : string :=
  match v with
  | PStr s => "<" +:+ s +:+ ">"
  | PList items => foldr (λ v acc, show_pyval v +:+ acc) "" items
  | PDict fields => foldr (λ kv acc, show_pyval kv.2 +:+ acc) "" fields
  end.

Definition demo_render (template : string) (data : pyval) : result string :=
  Ok (template +:+ show_pyval data).

Definition demo_fetch (url : string) : option string := Some ("picture of " +:+ url).

(** [/m] holds [a.jpg] and the directory [sub] with [b.jpg]; the script runs
    in [/work], next to its template. *)
Definition demo_fs : filesystem :=
  [ IDir [("m", 1); ("work", 5)];
    IDir [("a.jpg", 2); ("sub", 3)];
    IFile "A";
    IDir [("b.jpg", 4)];
    IFile "B";
    IDir [("template.html", 6)];
    IFile "T:" ].

Definition demo_world : world := World demo_fs "/work" [] [] [].

(** ** Directory trees *)

(** A finite directory tree of regular files and subdirectories, each
    directory with its entries in listing order. *)
Inductive tree :=
  | File
  | Dir (children : list (string * tree)).

(** No separator in a name. *)
Fixpoint no_sep (s : string) : bool :=
  match s with
  | EmptyString => true
  | String c s' => negb (bool_decide (c = sep)) && no_sep s'
  end.

(** The names a directory can hold. *)
Definition valid_name (n : string) : bool :=
  no_sep n && is_component n && negb (bool_decide (n = "..")).

(** Every directory holds valid names, each once. *)
Fixpoint wf_tree (t : tree) : bool :=
  match t with
  | File => true
  | Dir es =>
      bool_decide (NoDup (map fst es))
      && forallb valid_name (map fst es)
      && (fix all (es : list (string * tree)) : bool :=
            match es with
            | [] => true
            | (_, c) :: rest => wf_tree c && all rest
            end) es
  end.

(** The file system shows the tree [t] at path [p]. *)
Fixpoint tree_at (fs : filesystem) (cwd p : string) (t : tree) : Prop :=
  match t with
  | File => os_path_isfile fs cwd p = true
  | Dir es =>
      os_listdir fs cwd p = Ok (map fst es)
      ∧ (fix all (es : list (string * tree)) : Prop :=
           match es with
           | [] => True
           | (n, c) :: rest => tree_at fs cwd (os_path_join p n) c ∧ all rest
           end) es
  end.

(** The node reached from [t] by a list of names. *)
Fixpoint tree_lookup (t : tree) (names : list string) : option tree :=
  match names with
  | [] => Some t
  | n :: rest =>
      match t with
      | File => None
      | Dir es =>
          (fix find (es : list (string * tree)) : option tree :=
             match es with
             | [] => None
             | (m, c) :: es' =>
                 if bool_decide (m = n) then tree_lookup c rest else find es'
             end) es
      end
  end.

(** [p] is the path of a regular file of [t] when [t] sits at [root]. *)
Definition file_under (root : string) (t : tree) (p : string) : Prop :=
  ∃ names, names ≠ [] ∧ tree_lookup t names = Some File
           ∧ p = foldl os_path_join root names.

(** The files of [t] at [p] in listing order, depth first. *)
Fixpoint tree_files (p : string) (t : tree) : list string :=
  match t with
  | File => [p]
  | Dir es =>
      (fix each (es : list (string * tree)) : list string :=
         match es with
         | [] => []
         | (n, c) :: rest => tree_files (os_path_join p n) c ++ each rest
         end) es
  end.

Fixpoint depth (t : tree) : nat :=
  match t with
  | File => 0
  | Dir es =>
      S ((fix deepest (es : list (string * tree)) : nat :=
            match es with
            | [] => 0
            | (_, c) :: rest => Nat.max (depth c) (deepest rest)
            end) es)
  end.

Definition demo_tree : tree :=
  Dir [("a.jpg", File); ("sub", Dir [("b.jpg", File)])].

(** A directory [/m] whose entry [loop] leads back to [/m] itself, as after
    [ln -s . /m/loop]. *)
Definition loop_fs : filesystem :=
  [ IDir [("m", 1)];
    IDir [("loop", 1)] ].

(** ** Paths below a directory *)

(** What [os.path.join] puts in front of a name. *)
Definition join_base (p : string) : string :=
  if bool_decide (p = "") || str_endswith_sep p then p else p +:+ "/".

(** A path that does not end in a separator, as every joined path is. *)
Definition proper (p : string) : Prop := p ≠ "" ∧ str_endswith_sep p = false.

(** [q] is [p] or lies below it. *)
Definition below (p q : string) : Prop := q = p ∨ ∃ r, q = p +:+ "/" +:+ r.

(** ** File systems that only grow *)

(** [fs'] extends [fs]: every inode is still there, a regular file is still a
    regular file, and a directory is a directory with its old entries first. *)
Definition fs_extends (fs fs' : filesystem) : Prop :=
  ∀ i, match fs !! i with
       | Some (IFile _) => ∃ data, fs' !! i = Some (IFile data)
       | Some (IDir es) => ∃ more, fs' !! i = Some (IDir (es ++ more))
       | None => True
       end.

(** ** The remote resource and the target of fetch [i] *)

Definition picsum_url (i : Z) : string :=
  "https://picsum.photos/1920/1080/?random=" +:+ str_of_int i.

Definition jpg_name (i : Z) : string := str_of_int i +:+ ".jpg".

(** An empty directory [/d] to seed, and a network on which every transfer
    fails. *)
Definition empty_dir_fs : filesystem := [ IDir [("d", 1)]; IDir [] ].

Definition empty_dir_world : world := World empty_dir_fs "/" [] [] [].

Definition no_network (url : string) : option string := None.

(** ** Occurrences of a substring *)

(** [old] occurs in [s] at offset [i]. *)
Definition occurs_at (old : string) (i : nat) (s : string) : bool :=
  String.prefix old (str_drop i s).

(** In [key], the occurrence of [old] at offset [i] of [s] has been replaced:
    [new] stands in front of what the rest of [s] has become. *)
Definition replaced_at (old new : string) (i : nat) (s key : string) : Prop :=
  ∃ u, key = u +:+ new +:+ str_replace (str_drop (i + String.length old) s) old new.

(** Number of separators in a string. *)
Fixpoint count_sep (s : string) : nat :=
  match s with
  | EmptyString => 0
  | String c s' => (if bool_decide (c = sep) then 1 else 0) + count_sep s'
  end.

(** The record the template gets for one picture when a prefix is given. *)
Definition record (prefix media_dir picture : string) : pyval :=
  PDict [("key", PStr (str_replace picture (media_dir +:+ "/") prefix))].

(** ** The steps of [main] before the paths are collected *)

Section Prepare.
Variable fetch : string → option string.

(** Lines 43 to 49: the media directory is made absolute, created when
    missing and seeded when asked for. *)
Definition prepare (args : Namespace) : M string :=
  let! media_dir := ask (λ _ cwd, os_path_abspath cwd (arg_media_dir args)) in
  let! present := ask (λ fs cwd, Ok (os_path_exists fs cwd media_dir)) in
  (if negb present then
     print "Media directory does not exist. Creating..." ;;;
     update (λ fs cwd, fs_mkdir fs cwd media_dir)
   else ret tt) ;;;
  (if (0 <? arg_init_dataset args)%Z then
     download_dataset fetch media_dir (arg_init_dataset args)
   else ret tt) ;;;
  ret media_dir.
End Prepare.

(** [/a/b] with [c/d.jpg], [a/b/c.jpg] and [x/a/b/y.jpg]; the template is in
    [/work]. *)
Definition ab_fs : filesystem :=
  [ IDir [("a", 1); ("work", 12)];
    IDir [("b", 2)];
    IDir [("c", 3); ("a", 5); ("x", 8)];
    IDir [("d.jpg", 4)];
    IFile "D";
    IDir [("b", 6)];
    IDir [("c.jpg", 7)];
    IFile "C";
    IDir [("a", 9)];
    IDir [("b", 10)];
    IDir [("y.jpg", 11)];
    IFile "Y";
    IDir [("template.html", 13)];
    IFile "T:" ].

Definition ab_world : world := World ab_fs "/work" [] [] [].

(** ** Repeated runs *)

Definition demo_args : Namespace := Args (Some "/m") 0 "".

(** The world after one, two and three runs over [/m]. *)
Definition demo_run1 : world := (main demo_fetch demo_render 5 demo_args demo_world).2.
Definition demo_run2 : world := (main demo_fetch demo_render 5 demo_args demo_run1).2.
Definition demo_run3 : world := (main demo_fetch demo_render 5 demo_args demo_run2).2.

(** ** File systems of the same shape *)

(** The same inodes with the same directories; only the contents of regular
    files may differ. *)
Definition same_shape (fs fs' : filesystem) : Prop :=
  ∀ i, match fs !! i, fs' !! i with
       | Some (IFile _), Some (IFile _) => True
       | Some (IDir es), Some (IDir es') => es = es'
       | None, None => True
       | _, _ => False
       end.

(** [p] is a directory. *)
Definition is_dir (fs : filesystem) (cwd p : string) : Prop :=
  ∃ d es, resolve fs cwd p = Some d ∧ fs !! d = Some (IDir es).

(** The directory [to] has an entry of name [n]. *)
Definition entered (fs : filesystem) (cwd to n : string) : Prop :=
  ∃ d es j, resolve fs cwd to = Some d ∧ fs !! d = Some (IDir es)
            ∧ dir_lookup es n = Some j.

(** ** Further file systems for examples *)

(** [/m] lists [a.jpg] and an entry [gone] whose inode does not exist, as a
    symbolic link does whose target has been removed. *)
Definition broken_fs : filesystem :=
  [ IDir [("m", 1)];
    IDir [("a.jpg", 2); ("gone", 9)];
    IFile "A" ].

(** A template engine that always fails. *)
Definition failing_render (template : string) (data : pyval) : result string :=
  Raise TemplateError.

(** No two separators in a row. *)
Fixpoint no_double_sep (s : string) : bool :=
  match s with
  | String a (String b _ as s') =>
      negb (bool_decide (a = sep) && bool_decide (b = sep)) && no_double_sep s'
  | _ => true
  end.

(** A path without doubled separators that is the root or ends in a name. *)
Definition clean (p : string) : Prop :=
  no_double_sep p = true ∧ (p = "/" ∨ proper p).

(** A file system whose root directory is the media root: [/a.jpg] and
    [/work/template.html]. *)
Definition root_fs : filesystem :=
  [ IDir [("a.jpg", 1); ("work", 2)];
    IFile "A";
    IDir [("template.html", 3)];
    IFile "T:" ].

Definition root_tree : tree :=
  Dir [("a.jpg", File); ("work", Dir [("template.html", File)])].

(** * Properties *)

(** ** Sample evaluations *)

Example split_demo : str_split_sep "/a//b/" = [""; "a"; ""; "b"; ""].
Proof. reflexivity. Qed.

Example normpath_demo :
  map os_path_normpath ["/a/b/"; "a/./b/../c"; "//x"; "///x"; "/.."; ""; "../a"]
  = ["/a/b"; "a/c"; "//x"; "/x"; "/"; "."; "../a"].
Proof. vm_compute. reflexivity. Qed.

Example join_demo :
  [os_path_join "/a/b" "c"; os_path_join "/" "c"; os_path_join "" "c";
   os_path_join "/a" "/c"]
  = ["/a/b/c"; "/c"; "c"; "/c"].
Proof. reflexivity. Qed.

Example replace_demo :
  [str_replace "/a/b/c/d.jpg" "/a/b/" "X"; str_replace "/m/x/m/y" "/m/" "P";
   str_replace "aaa" "aa" "b"; str_replace "ab" "" "-"]
  = ["Xc/d.jpg"; "PxPy"; "ba"; "-a-b-"].
Proof. reflexivity. Qed.

Example str_of_int_demo : map str_of_int [0; 7; 12; -3]%Z = ["0"; "7"; "12"; "-3"].
Proof. reflexivity. Qed.

Example get_paths_demo :
  get_paths 5 demo_fs "/work" "/m" = Ok ["/m/a.jpg"; "/m/sub/b.jpg"].
Proof. vm_compute. reflexivity. Qed.

Example main_demo :
  let '(r, w) := main demo_fetch demo_render 5 (Args (Some "/m") 0 "pics/") demo_world in
  r = Ok tt
  ∧ fs_read (inodes w) (cwd w) "/m/index.html" = Ok "T:<pics/a.jpg><pics/sub/b.jpg>"
  ∧ os_listdir (inodes w) (cwd w) "/m" = Ok ["a.jpg"; "sub"; "index.html"].
Proof. vm_compute. auto. Qed.

Example seed_demo :
  let '(r, w) := main demo_fetch demo_render 5 (Args (Some "../new") 2 "") demo_world in
  r = Ok tt
  ∧ stdout w = ["Media directory does not exist. Creating..."]
  ∧ os_listdir (inodes w) (cwd w) "/new" = Ok ["0.jpg"; "1.jpg"; "index.html"]
  ∧ fs_read (inodes w) (cwd w) "/new/index.html" = Ok "T:</new/0.jpg></new/1.jpg>".
Proof. vm_compute. auto. Qed.

(** ** Strings *)

Lemma str_app_cons c s t : String c s +:+ t = String c (s +:+ t).
Proof. reflexivity. Qed.

Lemma str_app_nil_r s : s +:+ "" = s.
Proof. induction s as [|c s IH]; [reflexivity|]. by rewrite str_app_cons, IH. Qed.

Lemma str_app_assoc s t u : (s +:+ t) +:+ u = s +:+ (t +:+ u).
Proof. induction s as [|c s IH]; [reflexivity|]. by rewrite !str_app_cons, IH. Qed.

Lemma str_length_app s t :
  String.length (s +:+ t) = String.length s + String.length t.
Proof. induction s as [|c s IH]; [reflexivity|]. rewrite str_app_cons. simpl. lia. Qed.

Lemma str_app_inv_head s t u : s +:+ t = s +:+ u → t = u.
Proof. induction s as [|c s IH]; [done|]. rewrite !str_app_cons. intros [=]. auto. Qed.

Lemma prefix_cons c d p s :
  String.prefix (String c p) (String d s) = bool_decide (c = d) && String.prefix p s.
Proof. simpl. destruct (ascii_dec c d); case_bool_decide; done. Qed.

Lemma prefix_app p s : String.prefix p (p +:+ s) = true.
Proof.
  induction p as [|c p IH]; [by destruct s|].
  rewrite str_app_cons, prefix_cons, IH. by rewrite bool_decide_eq_true_2.
Qed.

Lemma prefix_true p s : String.prefix p s = true → ∃ r, s = p +:+ r.
Proof.
  revert s. induction p as [|c p IH]; intros s H; [by exists s|].
  destruct s as [|d s]; [done|]. rewrite prefix_cons in H.
  apply andb_true_iff in H as [Hc Hp]. apply bool_decide_eq_true_1 in Hc as ->.
  destruct (IH _ Hp) as [r ->]. by exists r.
Qed.

(** *** Names *)

Lemma no_sep_app s t : no_sep (s +:+ t) = no_sep s && no_sep t.
Proof.
  induction s as [|c s IH]; [reflexivity|].
  rewrite str_app_cons. simpl. rewrite IH. by rewrite andb_assoc.
Qed.

Lemma valid_name_no_sep n : valid_name n = true → no_sep n = true.
Proof. unfold valid_name. rewrite !andb_true_iff. tauto. Qed.

Lemma valid_name_component n : valid_name n = true → is_component n = true.
Proof. unfold valid_name. rewrite !andb_true_iff. tauto. Qed.

Lemma valid_name_nonempty n : valid_name n = true → n ≠ "".
Proof. by intros H ->. Qed.

Lemma no_sep_not_startswith n : no_sep n = true → str_startswith n "/" = false.
Proof.
  destruct n as [|c n]; [done|]. intros H. simpl in H.
  apply andb_true_iff in H as [H _].
  apply negb_true_iff, bool_decide_eq_false_1 in H.
  unfold str_startswith. change "/" with (String sep ""). rewrite prefix_cons.
  by rewrite bool_decide_eq_false_2.
Qed.

Lemma endswith_sep_app s n :
  n ≠ "" → str_endswith_sep (s +:+ n) = str_endswith_sep n.
Proof.
  intros Hn. induction s as [|c s IH]; [reflexivity|].
  rewrite str_app_cons. simpl. rewrite IH.
  destruct (s +:+ n) eqn:E; [|done].
  destruct s; [|done]. by destruct n.
Qed.

Lemma no_sep_not_endswith n : no_sep n = true → str_endswith_sep n = false.
Proof.
  induction n as [|c n IH]; [done|]. simpl. intros [Hc Hn]%andb_true_iff.
  destruct n; [|by apply IH].
  apply negb_true_iff in Hc. done.
Qed.

Lemma join_name p n : no_sep n = true → os_path_join p n = join_base p +:+ n.
Proof.
  intros Hn. unfold os_path_join, join_base.
  rewrite (no_sep_not_startswith _ Hn).
  destruct (bool_decide (p = "") || str_endswith_sep p); [done|].
  by rewrite str_app_assoc.
Qed.

Lemma join_proper p n : valid_name n = true → proper (os_path_join p n).
Proof.
  intros Hn. pose proof (valid_name_no_sep _ Hn) as Hs.
  pose proof (valid_name_nonempty _ Hn) as Hne.
  rewrite join_name by done. split.
  - destruct (join_base p); [done|]. by rewrite str_app_cons.
  - rewrite endswith_sep_app by done. by apply no_sep_not_endswith.
Qed.

Lemma join_base_proper p : proper p → join_base p = p +:+ "/".
Proof.
  intros [Hne He]. unfold join_base. rewrite He.
  by rewrite bool_decide_eq_false_2.
Qed.

Lemma below_join p n q :
  proper p → no_sep n = true → below (os_path_join p n) q → below p q.
Proof.
  intros Hp Hn Hq. rewrite join_name, join_base_proper in Hq by done.
  right. destruct Hq as [->|[r ->]].
  - exists n. by rewrite str_app_assoc.
  - exists (n +:+ "/" +:+ r). by rewrite !str_app_assoc.
Qed.

Lemma name_cut n n' x x' :
  no_sep n = true → no_sep n' = true →
  (x = "" ∨ ∃ r, x = String sep r) → (x' = "" ∨ ∃ r, x' = String sep r) →
  n +:+ x = n' +:+ x' → n = n'.
Proof.
  revert n'. induction n as [|c n IH]; intros [|c' n'] Hn Hn' Hx Hx' E; [done| | |].
  - simpl in Hn'. apply andb_true_iff in Hn' as [Hc _].
    apply negb_true_iff, bool_decide_eq_false_1 in Hc.
    rewrite str_app_cons in E. destruct Hx as [->|[r ->]]; [done|].
    injection E as E _. by subst.
  - simpl in Hn. apply andb_true_iff in Hn as [Hc _].
    apply negb_true_iff, bool_decide_eq_false_1 in Hc.
    rewrite str_app_cons in E. destruct Hx' as [->|[r ->]]; [done|].
    injection E as E _. by subst.
  - simpl in Hn, Hn'. apply andb_true_iff in Hn as [_ Hn], Hn' as [_ Hn'].
    rewrite !str_app_cons in E. injection E as -> E.
    f_equal. by apply (IH n').
Qed.

(** Two entries of one directory with a path below both are the same entry. *)
Lemma below_join_inj p n n' q :
  no_sep n = true → no_sep n' = true →
  below (os_path_join p n) q → below (os_path_join p n') q → n = n'.
Proof.
  intros Hn Hn'. rewrite !join_name by done. intros H H'.
  assert (∃ x, q = join_base p +:+ n +:+ x ∧ (x = "" ∨ ∃ r, x = String sep r))
    as (x & -> & Hx).
  { destruct H as [->|[r ->]].
    - exists "". by rewrite str_app_nil_r; auto.
    - exists ("/" +:+ r). rewrite !str_app_assoc. eauto. }
  assert (∃ x', join_base p +:+ n +:+ x = join_base p +:+ n' +:+ x'
                ∧ (x' = "" ∨ ∃ r, x' = String sep r)) as (x' & E & Hx').
  { destruct H' as [E|[r E]].
    - exists "". rewrite str_app_nil_r. auto.
    - exists ("/" +:+ r). rewrite E, !str_app_assoc. eauto. }
  apply str_app_inv_head in E. by apply (name_cut n n' x x').
Qed.

(** ** Trees *)

Lemma tree_induction (P : tree → Prop) :
  P File → (∀ es, Forall (λ e, P e.2) es → P (Dir es)) → ∀ t, P t.
Proof.
  intros HF HD. fix IH 1. intros [|es]; [exact HF|].
  apply HD. induction es as [|[n c] es IHes]; constructor; [apply IH|exact IHes].
Qed.

Lemma tree_at_dir fs cwd p es :
  tree_at fs cwd p (Dir es)
  ↔ os_listdir fs cwd p = Ok (map fst es)
    ∧ Forall (λ e, tree_at fs cwd (os_path_join p e.1) e.2) es.
Proof.
  simpl. apply and_iff_compat_l.
  induction es as [|[n c] es IH]; [by split; [constructor|]|].
  rewrite Forall_cons, IH. done.
Qed.

Lemma wf_tree_dir es :
  wf_tree (Dir es) = true
  ↔ NoDup (map fst es) ∧ Forall (λ e, valid_name e.1 = true) es
    ∧ Forall (λ e, wf_tree e.2 = true) es.
Proof.
  simpl. rewrite !andb_true_iff, bool_decide_eq_true.
  assert (forallb valid_name (map fst es) = true
          ↔ Forall (λ e, valid_name e.1 = true) es) as ->.
  { induction es as [|[n c] es IH]; [by split; [constructor|]|].
    simpl. rewrite Forall_cons, andb_true_iff, IH. done. }
  match goal with |- context [?f es = true] =>
    assert (f es = true ↔ Forall (λ e, wf_tree e.2 = true) es) as ->
  end; [|tauto].
  induction es as [|[n c] es IH]; [by split; [constructor|]|].
  rewrite Forall_cons, andb_true_iff, IH. done.
Qed.

Lemma tree_files_cons p n c es :
  tree_files p (Dir ((n, c) :: es))
  = tree_files (os_path_join p n) c ++ tree_files p (Dir es).
Proof. reflexivity. Qed.

Lemma elem_of_tree_files_dir p es q :
  q ∈ tree_files p (Dir es)
  ↔ ∃ e, e ∈ es ∧ q ∈ tree_files (os_path_join p e.1) e.2.
Proof.
  induction es as [|[n c] es IH].
  - split; [by intros ?%elem_of_nil|]. by intros (e & ?%elem_of_nil & _).
  - rewrite tree_files_cons, elem_of_app, IH. split.
    + intros [H|(e & He & H)]; [exists (n, c)|exists e];
        (split; [|done]); [left|by right].
    + intros (e & [->|He]%elem_of_cons & H); [by left|right; eauto].
Qed.

Lemma depth_child e es : e ∈ es → depth e.2 < depth (Dir es).
Proof.
  induction es as [|[n c] es IH]; [by intros ?%elem_of_nil|].
  intros [->|He]%elem_of_cons; simpl in *; [lia|].
  specialize (IH He). lia.
Qed.

Lemma tree_lookup_cons m c es n rest :
  tree_lookup (Dir ((m, c) :: es)) (n :: rest)
  = if bool_decide (m = n) then tree_lookup c rest
    else tree_lookup (Dir es) (n :: rest).
Proof. reflexivity. Qed.

(** Looking a name up finds the entry of that name. *)
Lemma tree_lookup_entry es n c rest :
  NoDup (map fst es) → (n, c) ∈ es →
  tree_lookup (Dir es) (n :: rest) = tree_lookup c rest.
Proof.
  induction es as [|[m c'] es IH]; [by intros _ ?%elem_of_nil|].
  simpl map. intros [Hm Hes]%NoDup_cons Hin. rewrite tree_lookup_cons.
  apply elem_of_cons in Hin as [[= -> ->]|Hin].
  - by rewrite bool_decide_eq_true_2.
  - rewrite bool_decide_eq_false_2; [by apply IH|].
    intros ->. apply Hm. apply list_elem_of_fmap. by exists (n, c).
Qed.

Lemma tree_lookup_found es n rest t :
  tree_lookup (Dir es) (n :: rest) = Some t →
  ∃ c, (n, c) ∈ es ∧ tree_lookup c rest = Some t.
Proof.
  induction es as [|[m c] es IH]; [done|].
  rewrite tree_lookup_cons. case_bool_decide as E.
  - subst. exists c. split; [left|done].
  - intros (c' & ? & ?)%IH. exists c'. split; [by right|done].
Qed.

(** ** The path collector on a tree *)

Lemma listdir_ok_not_file fs cwd p names :
  os_listdir fs cwd p = Ok names → os_path_isfile fs cwd p = false.
Proof.
  unfold os_listdir, os_path_isfile. by destruct (stat fs cwd p) as [[]|].
Qed.

Lemma get_paths_loop_children fs cwd fuel p es output :
  Forall (λ e, tree_at fs cwd (os_path_join p e.1) e.2
               ∧ match e.2 with
                 | File => True
                 | Dir _ => get_paths fuel fs cwd (os_path_join p e.1)
                            = Ok (tree_files (os_path_join p e.1) e.2)
                 end) es →
  get_paths_loop (os_path_isfile fs cwd) (get_paths fuel fs cwd) p
    (map fst es) output
  = Ok (output ++ tree_files p (Dir es)).
Proof.
  revert output. induction es as [|[n c] es IH]; intros output H.
  - simpl. by rewrite app_nil_r.
  - apply Forall_cons in H as [[Hat Hrec] H]. simpl in Hat, Hrec.
    rewrite tree_files_cons, app_assoc. cbn [map fst get_paths_loop].
    destruct c as [|es'].
    + simpl in Hat. rewrite Hat. by apply IH.
    + apply tree_at_dir in Hat as [Hls _].
      rewrite (listdir_ok_not_file _ _ _ _ Hls), Hrec. by apply IH.
Qed.

(** On a directory tree the collector returns the files in listing order,
    with any fuel above the depth of the tree. *)
Lemma get_paths_tree fs cwd t :
  ∀ p fuel, tree_at fs cwd p t → depth t ≤ fuel →
    match t with
    | File => True
    | Dir _ => get_paths fuel fs cwd p = Ok (tree_files p t)
    end.
Proof.
  induction t as [|es IH] using tree_induction; [done|].
  intros p fuel Hat Hd. pose proof Hat as [Hls Hch]%tree_at_dir.
  destruct fuel as [|fuel]; [simpl in Hd; lia|].
  cbn [get_paths]. rewrite Hls.
  rewrite (get_paths_loop_children fs cwd fuel p es []); [done|].
  apply Forall_forall. intros e He. split.
  - by eapply Forall_forall in Hch.
  - eapply Forall_forall in IH; [|done]. eapply Forall_forall in Hch; [|done].
    specialize (IH (os_path_join p e.1) fuel Hch).
    pose proof (depth_child e es He). apply IH. lia.
Qed.

Lemma tree_files_below t :
  ∀ p q, wf_tree t = true → proper p → q ∈ tree_files p t → below p q.
Proof.
  induction t as [|es IH] using tree_induction; intros p q Hwf Hp Hq.
  - apply list_elem_of_singleton in Hq as ->. by left.
  - apply wf_tree_dir in Hwf as (_ & Hval & Hwf).
    apply elem_of_tree_files_dir in Hq as (e & He & Hq).
    eapply Forall_forall in IH, Hval, Hwf; try done.
    apply (below_join p e.1); [done|by apply valid_name_no_sep|].
    apply IH; [done|by apply join_proper|done].
Qed.

Lemma tree_files_NoDup t :
  ∀ p, wf_tree t = true → NoDup (tree_files p t).
Proof.
  induction t as [|es IH] using tree_induction; intros p Hwf.
  { apply NoDup_singleton. }
  apply wf_tree_dir in Hwf as (Hnd & Hval & Hwf).
  induction es as [|[n c] es IHes]; [constructor|].
  apply Forall_cons in IH as [IHc IH], Hval as [Hn Hval], Hwf as [Hc Hwf].
  simpl in Hnd. apply NoDup_cons in Hnd as [Hfresh Hnd]. simpl in IHc, Hn, Hc.
  rewrite tree_files_cons. apply NoDup_app. split; [by apply IHc|].
  split; [|by apply IHes].
  intros q Hq (e & He & Hq')%elem_of_tree_files_dir.
  pose proof Hval as Hval'. pose proof Hwf as Hwf'.
  eapply Forall_forall in Hval', Hwf'; try done.
  apply Hfresh. apply list_elem_of_fmap. exists e. split; [|done].
  apply (below_join_inj p n e.1 q); try by apply valid_name_no_sep.
  - apply (tree_files_below c); [done|by apply join_proper|done].
  - apply (tree_files_below e.2); [done|by apply join_proper|done].
Qed.

Lemma tree_files_lookup t :
  ∀ p q, wf_tree t = true →
    q ∈ tree_files p t
    ↔ ∃ names, tree_lookup t names = Some File ∧ q = foldl os_path_join p names.
Proof.
  induction t as [|es IH] using tree_induction; intros p q Hwf.
  - simpl. rewrite list_elem_of_singleton. split.
    + intros ->. by exists [].
    + intros ([|n names] & H & ->); [done|]. by destruct names.
  - pose proof Hwf as (Hnd & _ & Hwf')%wf_tree_dir.
    rewrite elem_of_tree_files_dir. split.
    + intros ([n c] & He & Hq).
      pose proof IH as IH'. eapply Forall_forall in IH', Hwf'; try done.
      apply IH' in Hq as (names & Hl & ->); [|done].
      exists (n :: names). split; [|done].
      by rewrite (tree_lookup_entry es n c names).
    + intros ([|n names] & Hl & ->); [done|].
      apply tree_lookup_found in Hl as (c & He & Hl).
      exists (n, c). split; [done|].
      eapply Forall_forall in IH, Hwf'; try done.
      apply IH; [done|]. by exists names.
Qed.

Lemma tree_files_isfile fs cwd t :
  ∀ p q, tree_at fs cwd p t → q ∈ tree_files p t → os_path_isfile fs cwd q = true.
Proof.
  induction t as [|es IH] using tree_induction; intros p q Hat Hq.
  - by apply list_elem_of_singleton in Hq as ->.
  - apply tree_at_dir in Hat as [_ Hch].
    apply elem_of_tree_files_dir in Hq as (e & He & Hq).
    eapply Forall_forall in IH, Hch; try done. by eapply IH.
Qed.

(** C1: on every finite directory tree of regular files and subdirectories
    with valid, distinct names in each directory, [get_paths] returns a list
    without duplicates whose members are exactly the paths of the regular
    files anywhere below the root, whatever the depth. *)
Theorem get_paths_exactly_the_files fs cwd root_dir es :
  wf_tree (Dir es) = true →
  tree_at fs cwd root_dir (Dir es) →
  ∃ out,
    (∀ fuel, depth (Dir es) ≤ fuel → get_paths fuel fs cwd root_dir = Ok out)
    ∧ NoDup out
    ∧ (∀ p, p ∈ out ↔ file_under root_dir (Dir es) p)
    ∧ (∀ p, p ∈ out → os_path_isfile fs cwd p = true).
Proof.
  intros Hwf Hat. exists (tree_files root_dir (Dir es)).
  split; [|split; [|split]].
  - intros fuel Hd. by apply (get_paths_tree fs cwd (Dir es)).
  - by apply tree_files_NoDup.
  - intros p. rewrite tree_files_lookup by done. unfold file_under. split.
    + intros (names & Hl & ->). exists names. split; [|done]. by intros ->.
    + intros (names & _ & Hl & ->). by exists names.
  - intros p. by apply tree_files_isfile.
Qed.

Lemma get_paths_exactly_the_files_witness :
  ∃ out,
    (∀ fuel, depth demo_tree ≤ fuel → get_paths fuel demo_fs "/work" "/m" = Ok out)
    ∧ NoDup out
    ∧ (∀ p, p ∈ out ↔ file_under "/m" demo_tree p)
    ∧ (∀ p, p ∈ out → os_path_isfile demo_fs "/work" p = true).
Proof.
  apply (get_paths_exactly_the_files demo_fs "/work" "/m").
  - vm_compute. reflexivity.
  - simpl. repeat split; vm_compute; reflexivity.
Defined.

(** ** Path resolution *)

Lemma split_nonempty s : str_split_sep s ≠ [].
Proof.
  destruct s as [|c s]; [done|]. simpl.
  case_bool_decide; [done|]. by destruct (str_split_sep s).
Qed.

Lemma split_app_sep a b :
  str_split_sep (a +:+ String sep b) = str_split_sep a ++ str_split_sep b.
Proof.
  induction a as [|c a IH].
  { reflexivity. }
  rewrite str_app_cons. simpl. rewrite IH. case_bool_decide; [done|].
  pose proof (split_nonempty a). by destruct (str_split_sep a).
Qed.

Lemma split_no_sep n : no_sep n = true → str_split_sep n = [n].
Proof.
  induction n as [|c n IH]; [done|]. simpl. intros [Hc Hn]%andb_true_iff.
  apply negb_true_iff in Hc. rewrite Hc, IH; done.
Qed.

Lemma endswith_sep_inv p : str_endswith_sep p = true → ∃ p', p = p' +:+ "/".
Proof.
  induction p as [|c p IH]; [done|]. simpl. destruct p as [|d p].
  - intros ->%bool_decide_eq_true_1. by exists "".
  - intros [p' ->]%IH. by exists (String c p').
Qed.

Lemma components_app_sep a b :
  components (a +:+ "/" +:+ b) = components a ++ components b.
Proof.
  unfold components. change ("/" +:+ b) with (String sep b).
  by rewrite split_app_sep, filter_app.
Qed.

Lemma components_name n : valid_name n = true → components n = [n].
Proof.
  intros Hn. unfold components. rewrite split_no_sep by by apply valid_name_no_sep.
  rewrite filter_cons_True; [done|]. by apply valid_name_component.
Qed.

Lemma components_join_base p n :
  valid_name n = true → components (join_base p +:+ n) = components p ++ [n].
Proof.
  intros Hn. unfold join_base.
  destruct (bool_decide (p = "")) eqn:Hp; simpl.
  { apply bool_decide_eq_true_1 in Hp as ->. by rewrite components_name. }
  destruct (str_endswith_sep p) eqn:He.
  - apply endswith_sep_inv in He as [p' ->].
    rewrite str_app_assoc, components_app_sep, (components_name n) by done.
    change (p' +:+ "/") with (p' +:+ "/" +:+ "").
    by rewrite components_app_sep, app_nil_r.
  - by rewrite str_app_assoc, components_app_sep, (components_name n).
Qed.

Lemma startswith_app p s :
  p ≠ "" → str_startswith (p +:+ s) "/" = str_startswith p "/".
Proof. destruct p as [|c p]; [done|]. intros _. by destruct p, s. Qed.

Lemma join_base_app a p : p ≠ "" → join_base (a +:+ p) = a +:+ join_base p.
Proof.
  intros Hp. unfold join_base. rewrite endswith_sep_app by done.
  rewrite (bool_decide_eq_false_2 (p = "")) by done.
  rewrite (bool_decide_eq_false_2 (a +:+ p = "")).
  - destruct (str_endswith_sep p); simpl; [done|]. by rewrite str_app_assoc.
  - destruct a; [done|]. by rewrite str_app_cons.
Qed.

Lemma join_base_nonempty p : p ≠ "" → join_base p ≠ "".
Proof. intros Hp. unfold join_base. by destruct (_ || _), p. Qed.

(** A joined path is the path itself extended by the name, also after it is
    made absolute. *)
Lemma full_path_join cwd p n :
  p ≠ "" → no_sep n = true →
  full_path cwd (os_path_join p n) = join_base (full_path cwd p) +:+ n.
Proof.
  intros Hp Hn. rewrite join_name by done. unfold full_path, os_path_isabs.
  rewrite startswith_app by by apply join_base_nonempty.
  assert (str_startswith (join_base p) "/" = str_startswith p "/") as ->.
  { unfold join_base. destruct (_ || _); [done|]. by apply startswith_app. }
  destruct (str_startswith p "/"); [done|].
  rewrite <-!str_app_assoc, (str_app_assoc cwd), join_base_app by done.
  by rewrite !str_app_assoc.
Qed.

Lemma walk_app fs cur cs cs' :
  walk fs cur (cs ++ cs')
  = match walk fs cur cs with
    | Some i => walk fs i cs'
    | None => None
    end.
Proof.
  revert cur. induction cs as [|c cs IH]; intros cur; [done|]. simpl.
  destruct (fs !! cur) as [[|es]|]; try done. by destruct (dir_lookup es c).
Qed.

Lemma join_nonempty p n : n ≠ "" → os_path_join p n ≠ "".
Proof.
  intros Hn. unfold os_path_join. destruct (str_startswith n "/"); [done|].
  destruct (_ || _).
  - destruct p; [done|]. by rewrite str_app_cons.
  - destruct p; [done|]. by rewrite str_app_cons.
Qed.

(** Resolving a joined path is resolving the path and looking the name up in
    the directory found. *)
Lemma resolve_join fs cwd p n d es :
  valid_name n = true →
  resolve fs cwd p = Some d → fs !! d = Some (IDir es) →
  resolve fs cwd (os_path_join p n) = dir_lookup es n.
Proof.
  intros Hn Hr Hd. unfold resolve in *.
  case_bool_decide as Hp; [done|].
  rewrite bool_decide_eq_false_2
    by by apply join_nonempty, valid_name_nonempty.
  rewrite full_path_join by (done || by apply valid_name_no_sep).
  rewrite components_join_base, walk_app, Hr by done.
  simpl. rewrite Hd. by destruct (dir_lookup es n).
Qed.

(** ** A directory that contains itself *)

Lemma get_paths_loop_fs fuel :
  ∀ p, resolve loop_fs "/" p = Some 1 → get_paths fuel loop_fs "/" p = Diverge.
Proof.
  induction fuel as [|fuel IH]; intros p Hp; [done|].
  assert (resolve loop_fs "/" (os_path_join p "loop") = Some 1) as Hfp.
  { by rewrite (resolve_join loop_fs "/" p "loop" 1 [("loop", 1)]). }
  cbn [get_paths]. unfold os_listdir, stat. rewrite Hp.
  cbn [loop_fs lookup list_lookup map fst get_paths_loop].
  unfold os_path_isfile, stat. rewrite Hfp. cbn [loop_fs lookup list_lookup].
  by rewrite IH.
Qed.

(** C6: [get_paths] returns on every finite directory tree, at any depth
    (every fuel above the depth of the tree gives the same list); it keeps no
    record of the directories it has entered, and on a directory whose entry
    leads back to the directory itself no amount of fuel lets it return. *)
Theorem get_paths_terminates_unless_cyclic :
  (∀ fs cwd root_dir es,
     tree_at fs cwd root_dir (Dir es) →
     ∃ fuel out, ∀ fuel', fuel ≤ fuel' → get_paths fuel' fs cwd root_dir = Ok out)
  ∧ (resolve loop_fs "/" (os_path_join "/m" "loop") = resolve loop_fs "/" "/m"
     ∧ ∀ fuel, get_paths fuel loop_fs "/" "/m" = Diverge).
Proof.
  split.
  - intros fs cwd root_dir es Hat.
    exists (depth (Dir es)), (tree_files root_dir (Dir es)).
    intros fuel' Hd. by apply (get_paths_tree fs cwd (Dir es)).
  - split; [reflexivity|]. intros fuel. by apply get_paths_loop_fs.
Qed.

Lemma get_paths_terminates_unless_cyclic_witness :
  ∃ fuel out, ∀ fuel', fuel ≤ fuel' → get_paths fuel' demo_fs "/work" "/m" = Ok out.
Proof.
  apply (proj1 get_paths_terminates_unless_cyclic demo_fs "/work" "/m"
           [("a.jpg", File); ("sub", Dir [("b.jpg", File)])]).
  simpl. repeat split; vm_compute; reflexivity.
Defined.

(** ** Writing to the file system *)

Lemma fs_extends_refl fs : fs_extends fs fs.
Proof.
  intros i. destruct (fs !! i) as [[data|es]|]; [by exists data| |done].
  exists []. by rewrite app_nil_r.
Qed.

Lemma fs_extends_trans fs1 fs2 fs3 :
  fs_extends fs1 fs2 → fs_extends fs2 fs3 → fs_extends fs1 fs3.
Proof.
  intros H12 H23 i. specialize (H12 i). specialize (H23 i).
  destruct (fs1 !! i) as [[data|es]|]; [| |done].
  - destruct H12 as [d2 E]. by rewrite E in H23.
  - destruct H12 as [m2 E]. rewrite E in H23. destruct H23 as [m3 ->].
    exists (m2 ++ m3). by rewrite app_assoc.
Qed.

Lemma dir_lookup_app_Some es more n i :
  dir_lookup es n = Some i → dir_lookup (es ++ more) n = Some i.
Proof.
  induction es as [|[m j] es IH]; [done|]. simpl. by case_bool_decide.
Qed.

Lemma dir_lookup_app_None es n i :
  dir_lookup es n = None → dir_lookup (es ++ [(n, i)]) n = Some i.
Proof.
  induction es as [|[m j] es IH]; simpl.
  - by rewrite bool_decide_eq_true_2.
  - by case_bool_decide.
Qed.

Lemma dir_lookup_elem es n i : dir_lookup es n = Some i → n ∈ map fst es.
Proof.
  induction es as [|[m j] es IH]; [done|]. simpl. case_bool_decide as E.
  - subst. intros _. left.
  - intros H. right. by apply IH.
Qed.

Lemma walk_extends fs fs' cur cs i :
  fs_extends fs fs' → walk fs cur cs = Some i → walk fs' cur cs = Some i.
Proof.
  intros Hext. revert cur. induction cs as [|c cs IH]; intros cur; [done|].
  simpl. specialize (Hext cur).
  destruct (fs !! cur) as [[data|es]|]; [done| |done].
  destruct Hext as [more ->].
  destruct (dir_lookup es c) as [j|] eqn:E; [|done].
  rewrite (dir_lookup_app_Some _ _ _ _ E). apply IH.
Qed.

Lemma resolve_extends fs fs' cwd p i :
  fs_extends fs fs' → resolve fs cwd p = Some i → resolve fs' cwd p = Some i.
Proof.
  intros Hext. unfold resolve. case_bool_decide; [done|]. by apply walk_extends.
Qed.

Lemma isfile_extends fs fs' cwd p :
  fs_extends fs fs' →
  os_path_isfile fs cwd p = true → os_path_isfile fs' cwd p = true.
Proof.
  intros Hext. unfold os_path_isfile, stat.
  destruct (resolve fs cwd p) as [i|] eqn:E; [|done].
  rewrite (resolve_extends _ _ _ _ _ Hext E). specialize (Hext i).
  destruct (fs !! i) as [[data|es]|]; [|done..].
  by destruct Hext as [data' ->].
Qed.

Lemma listdir_extends fs fs' cwd p names :
  fs_extends fs fs' →
  os_listdir fs cwd p = Ok names →
  ∃ more, os_listdir fs' cwd p = Ok (names ++ more).
Proof.
  intros Hext. unfold os_listdir, stat.
  destruct (resolve fs cwd p) as [i|] eqn:E; [|done].
  rewrite (resolve_extends _ _ _ _ _ Hext E). specialize (Hext i).
  destruct (fs !! i) as [[data|es]|]; [done| |done].
  destruct Hext as [more ->]. intros [= <-].
  exists (map fst more). by rewrite map_app.
Qed.

Lemma last_removelast {A} (l : list A) x : last l = Some x → l = removelast l ++ [x].
Proof.
  intros H. destruct l as [|y l] using rev_ind; [done|].
  rewrite last_snoc in H. injection H as ->. by rewrite removelast_last.
Qed.

(** Overwriting a regular file in place. *)
Lemma fs_extends_overwrite fs i old data :
  fs !! i = Some (IFile old) → fs_extends fs (<[i := IFile data]> fs).
Proof.
  intros Hi j. destruct (decide (i = j)) as [<-|Hne].
  - rewrite Hi. exists data. apply list_lookup_insert_eq.
    by eapply lookup_lt_Some.
  - rewrite list_lookup_insert_ne by done.
    destruct (fs !! j) as [[d|es]|]; [by exists d| |done].
    exists []. by rewrite app_nil_r.
Qed.

(** Entering a new inode in directory [d]. *)
Lemma fs_extends_create fs d es name node :
  fs !! d = Some (IDir es) →
  fs_extends fs (<[d := IDir (es ++ [(name, length fs)])]> fs ++ [node]).
Proof.
  intros Hd j. destruct (fs !! j) as [nd|] eqn:Hj; [|done].
  pose proof (lookup_lt_Some _ _ _ Hj) as Hlt.
  rewrite lookup_app_l by by rewrite length_insert.
  destruct (decide (d = j)) as [<-|Hne].
  - rewrite list_lookup_insert_eq by done. rewrite Hd in Hj. injection Hj as <-.
    by eexists.
  - rewrite list_lookup_insert_ne, Hj by done.
    destruct nd as [data|es']; [by exists data|].
    exists []. by rewrite app_nil_r.
Qed.

Lemma parent_and_name_Some fs cwd p d es name :
  parent_and_name fs cwd p = Some (d, es, name) →
  ∃ cs, components (full_path cwd p) = cs ++ [name]
        ∧ walk fs 0 cs = Some d ∧ fs !! d = Some (IDir es).
Proof.
  unfold parent_and_name.
  destruct (last (components (full_path cwd p))) as [nm|] eqn:El; [|done].
  apply last_removelast in El.
  destruct (walk fs 0 (removelast _)) as [d'|] eqn:Ew; [|done].
  destruct (fs !! d') as [[data|es']|] eqn:Ed; try done.
  intros [= -> -> ->]. eauto.
Qed.

(** A write that succeeds leaves the data in a regular file at the path,
    entered under its name in the parent directory, and only extends the
    file system. *)
Lemma fs_write_Ok fs cwd p data fs' :
  fs_write fs cwd p data = Ok fs' →
  p ≠ "" ∧ fs_extends fs fs'
  ∧ ∃ cs name d es' i,
      components (full_path cwd p) = cs ++ [name]
      ∧ walk fs 0 cs = Some d ∧ walk fs' 0 cs = Some d
      ∧ fs' !! d = Some (IDir es') ∧ dir_lookup es' name = Some i
      ∧ fs' !! i = Some (IFile data).
Proof.
  unfold fs_write. case_bool_decide as Hp; [done|].
  destruct (parent_and_name fs cwd p) as [[[d es] name]|] eqn:Epn.
  2:{ by destruct (stat fs cwd p) as [[]|]. }
  apply parent_and_name_Some in Epn as (cs & Hcs & Hw & Hd).
  destruct (dir_lookup es name) as [i|] eqn:El.
  - destruct (fs !! i) as [[old|?]|] eqn:Hi; try done. intros [= <-].
    pose proof (fs_extends_overwrite fs i old data Hi) as Hext.
    split; [done|]. split; [done|]. exists cs, name, d, es, i.
    split; [done|]. split; [done|]. split; [by eapply walk_extends|].
    split; [|split; [done|]].
    + rewrite list_lookup_insert_ne; [done|]. intros ->. by rewrite Hi in Hd.
    + apply list_lookup_insert_eq. by eapply lookup_lt_Some.
  - intros [= <-].
    pose proof (fs_extends_create fs d es name (IFile data) Hd) as Hext.
    pose proof (lookup_lt_Some _ _ _ Hd) as Hlt.
    split; [done|]. split; [done|].
    exists cs, name, d, (es ++ [(name, length fs)]), (length fs).
    split; [done|]. split; [done|]. split; [by eapply walk_extends|].
    split; [|split; [by apply dir_lookup_app_None|]].
    + rewrite lookup_app_l by by rewrite length_insert.
      by apply list_lookup_insert_eq.
    + rewrite lookup_app_r by by rewrite length_insert.
      by rewrite length_insert, Nat.sub_diag.
Qed.

Lemma fs_write_extends fs cwd p data fs' :
  fs_write fs cwd p data = Ok fs' → fs_extends fs fs'.
Proof. intros H. by apply fs_write_Ok in H as (_ & ? & _). Qed.

(** Reading back what was written. *)
Lemma fs_write_read fs cwd p data fs' :
  fs_write fs cwd p data = Ok fs' → fs_read fs' cwd p = Ok data.
Proof.
  intros (Hp & _ & cs & name & d & es' & i & Hcs & _ & Hw & Hd & Hl & Hi)%fs_write_Ok.
  unfold fs_read, stat, resolve. rewrite bool_decide_eq_false_2 by done.
  rewrite Hcs, walk_app, Hw. simpl. by rewrite Hd, Hl, Hi.
Qed.

Lemma fs_read_isfile fs cwd p data :
  fs_read fs cwd p = Ok data → os_path_isfile fs cwd p = true.
Proof. unfold fs_read, os_path_isfile. by destruct (stat fs cwd p) as [[]|]. Qed.

(** After a write to [p/n], the name [n] is listed in [p]. *)
Lemma fs_write_listed fs cwd p n data fs' :
  p ≠ "" → valid_name n = true →
  fs_write fs cwd (os_path_join p n) data = Ok fs' →
  ∃ names, os_listdir fs' cwd p = Ok names ∧ n ∈ names.
Proof.
  intros Hp Hn (_ & _ & cs & name & d & es' & i & Hcs & _ & Hw & Hd & Hl & _)%fs_write_Ok.
  rewrite full_path_join, components_join_base in Hcs
    by (done || by apply valid_name_no_sep).
  apply app_inj_tail in Hcs as [<- <-].
  exists (map fst es'). split; [|by eapply dir_lookup_elem].
  unfold os_listdir, stat, resolve. rewrite bool_decide_eq_false_2 by done.
  by rewrite Hw, Hd.
Qed.

Lemma fs_mkdir_extends fs cwd p fs' :
  fs_mkdir fs cwd p = Ok fs' → fs_extends fs fs'.
Proof.
  unfold fs_mkdir. destruct (stat fs cwd p); [done|].
  case_bool_decide; [done|].
  destruct (parent_and_name fs cwd p) as [[[d es] name]|] eqn:Epn; [|done].
  apply parent_and_name_Some in Epn as (cs & _ & _ & Hd).
  intros [= <-]. by apply fs_extends_create.
Qed.

(** ** Decimal numerals *)

Lemma no_sep_string_of_uint d : no_sep (NilEmpty.string_of_uint d) = true.
Proof. induction d; simpl; done. Qed.

Lemma no_sep_str_of_int i : no_sep (str_of_int i) = true.
Proof.
  unfold str_of_int. destruct (Z.to_int i) as [d|d]; simpl.
  - apply no_sep_string_of_uint.
  - apply no_sep_string_of_uint.
Qed.

Lemma str_of_int_inj i j : str_of_int i = str_of_int j → i = j.
Proof.
  unfold str_of_int. intros E. apply DecimalZ.to_int_inj.
  pose proof (NilEmpty.isi (Z.to_int i)) as Hi. rewrite E, NilEmpty.isi in Hi.
  by injection Hi.
Qed.

Lemma long_name_valid n :
  no_sep n = true → 3 ≤ String.length n → valid_name n = true.
Proof.
  intros Hs Hl. unfold valid_name, is_component. rewrite Hs.
  rewrite !bool_decide_eq_false_2; [done|intros ->; simpl in Hl; lia..].
Qed.

Lemma jpg_name_valid i : valid_name (jpg_name i) = true.
Proof.
  unfold jpg_name. apply long_name_valid.
  - by rewrite no_sep_app, no_sep_str_of_int.
  - rewrite str_length_app. simpl. lia.
Qed.

Lemma picsum_url_inj i j : picsum_url i = picsum_url j → i = j.
Proof. intros E%str_app_inv_head. by apply str_of_int_inj. Qed.

(** ** [range] *)

Lemma range_length count : length (range count) = Z.to_nat count.
Proof. unfold range. by rewrite length_map, length_seq. Qed.

Lemma elem_of_range count i : i ∈ range count ↔ (0 ≤ i < count)%Z.
Proof.
  unfold range. rewrite list_elem_of_fmap. split.
  - intros (n & -> & Hn%elem_of_seq). lia.
  - intros Hi. exists (Z.to_nat i). split; [lia|]. apply elem_of_seq. lia.
Qed.

Lemma range_NoDup count : NoDup (range count).
Proof.
  unfold range. apply NoDup_fmap_2; [intros ?? H; lia|]. apply NoDup_seq.
Qed.

Example range_3 : range 3 = [0; 1; 2]%Z.
Proof. reflexivity. Qed.

Example range_negative : range (-2) = [].
Proof. reflexivity. Qed.

(** ** Creating files in a directory *)

Lemma full_path_app cwd p x : p ≠ "" → full_path cwd (p +:+ x) = full_path cwd p +:+ x.
Proof.
  intros Hp. unfold full_path, os_path_isabs. rewrite startswith_app by done.
  destruct (str_startswith p "/"); [done|]. by rewrite !str_app_assoc.
Qed.

Lemma components_child cwd to n :
  to ≠ "" → valid_name n = true →
  components (full_path cwd (to +:+ "/" +:+ n)) = components (full_path cwd to) ++ [n].
Proof.
  intros Hto Hn.
  by rewrite full_path_app, components_app_sep, (components_name n).
Qed.

Lemma resolve_Some_nonempty fs cwd p i : resolve fs cwd p = Some i → p ≠ "".
Proof. unfold resolve. by case_bool_decide. Qed.

Lemma app_sep_nonempty p x : p ≠ "" → p +:+ x ≠ "".
Proof. destruct p; [done|]. by rewrite str_app_cons. Qed.

Lemma resolve_child fs cwd to n d es :
  valid_name n = true →
  resolve fs cwd to = Some d → fs !! d = Some (IDir es) →
  resolve fs cwd (to +:+ "/" +:+ n) = dir_lookup es n.
Proof.
  intros Hn Hr Hd. pose proof (resolve_Some_nonempty _ _ _ _ Hr) as Hto.
  unfold resolve in *. rewrite bool_decide_eq_false_2 in Hr by done.
  rewrite bool_decide_eq_false_2 by by apply app_sep_nonempty.
  rewrite components_child, walk_app, Hr by done. simpl. rewrite Hd.
  by destruct (dir_lookup es n).
Qed.

(** Writing a name the directory does not hold yet creates the file. *)
Lemma fs_write_new fs cwd to d es n data :
  valid_name n = true →
  resolve fs cwd to = Some d → fs !! d = Some (IDir es) →
  dir_lookup es n = None →
  fs_write fs cwd (to +:+ "/" +:+ n) data
  = Ok (<[d := IDir (es ++ [(n, length fs)])]> fs ++ [IFile data]).
Proof.
  intros Hn Hr Hd Hl. pose proof (resolve_Some_nonempty _ _ _ _ Hr) as Hto.
  unfold resolve in Hr. rewrite bool_decide_eq_false_2 in Hr by done.
  unfold fs_write, parent_and_name.
  rewrite bool_decide_eq_false_2 by by apply app_sep_nonempty.
  rewrite components_child, last_snoc, removelast_last, Hr, Hd, Hl by done.
  done.
Qed.

Lemma create_lookup fs d es n node :
  fs !! d = Some (IDir es) →
  let fs' := <[d := IDir (es ++ [(n, length fs)])]> fs ++ [node] in
  fs' !! d = Some (IDir (es ++ [(n, length fs)]))
  ∧ fs' !! length fs = Some node
  ∧ length fs' = S (length fs)
  ∧ ∀ j, j ≠ d → j < length fs → fs' !! j = fs !! j.
Proof.
  intros Hd fs'. pose proof (lookup_lt_Some _ _ _ Hd) as Hlt. subst fs'.
  split; [|split; [|split]].
  - rewrite lookup_app_l by by rewrite length_insert.
    by apply list_lookup_insert_eq.
  - rewrite lookup_app_r by by rewrite length_insert.
    by rewrite length_insert, Nat.sub_diag.
  - rewrite length_app, length_insert. simpl. lia.
  - intros j Hj Hjl. rewrite lookup_app_l by by rewrite length_insert.
    by rewrite list_lookup_insert_ne.
Qed.

(** ** The monad *)

Lemma bind_Ok {A B} (m : M A) (k : A → M B) w b w' :
  bind m k w = (Ok b, w') → ∃ a w1, m w = (Ok a, w1) ∧ k a w1 = (Ok b, w').
Proof.
  unfold bind. destruct (m w) as [[a|e|] w1]; [|done..]. intros H. eauto.
Qed.

Lemma bind_assoc {A B C} (m : M A) (k : A → M B) (h : B → M C) w :
  bind (bind m k) h w = bind m (λ a, bind (k a) h) w.
Proof. unfold bind. by destruct (m w) as [[a|e|] w1]. Qed.

Lemma bind_ret_l {A B} (a : A) (k : A → M B) w : bind (ret a) k w = k a w.
Proof. reflexivity. Qed.

Lemma bind_ext {A B} (m : M A) (k k' : A → M B) w :
  (∀ a w1, k a w1 = k' a w1) → bind m k w = bind m k' w.
Proof. intros H. unfold bind. by destruct (m w) as [[a|e|] w1]. Qed.

Lemma update_Ok u w w' :
  update u w = (Ok tt, w') →
  u (inodes w) (cwd w) = Ok (inodes w')
  ∧ cwd w' = cwd w ∧ procs w' = procs w ∧ stdout w' = stdout w
  ∧ renders w' = renders w.
Proof.
  unfold update. destruct (u (inodes w) (cwd w)); [|done..].
  by intros [= <-].
Qed.

Lemma ask_Ok {A} (q : filesystem → string → result A) w a w' :
  ask q w = (Ok a, w') → q (inodes w) (cwd w) = Ok a ∧ w' = w.
Proof. unfold ask. by intros [= -> ->]. Qed.

Lemma for_each_cons_Ok {A} (body : A → M unit) x rest w w1 :
  body x w = (Ok tt, w1) → for_each (x :: rest) body w = for_each rest body w1.
Proof. intros H. simpl. unfold bind. by rewrite H. Qed.

(** ** The dataset seeder *)

Section Seeder.
Variable fetch : string → option string.

Lemma curl_extends url out fs cwd : fs_extends fs (curl fetch url out fs cwd).1.
Proof.
  unfold curl. destruct (fetch url) as [body|]; [|apply fs_extends_refl].
  destruct (fs_write fs cwd out body) eqn:E; simpl;
    [by eapply fs_write_extends|apply fs_extends_refl..].
Qed.

Lemma subprocess_run_curl to i w :
  subprocess_run fetch (curl_args to i) w
  = let r := curl fetch (picsum_url i) (to +:+ "/" +:+ jpg_name i)
               (inodes w) (cwd w) in
    (Ok r.2, World r.1 (cwd w) (procs w ++ [curl_args to i]) (stdout w) (renders w)).
Proof.
  unfold subprocess_run, curl_args. rewrite bool_decide_eq_true_2 by done.
  fold (picsum_url i). fold (jpg_name i).
  by destruct (curl fetch (picsum_url i) _ (inodes w) (cwd w)).
Qed.

(** The loop runs every command of the list, whatever the transfers do. *)
Lemma seed_loop to l :
  ∀ w, ∃ w',
    for_each l (λ i, subprocess_run fetch (curl_args to i) ;;; ret tt) w
    = (Ok tt, w')
    ∧ procs w' = procs w ++ map (curl_args to) l
    ∧ cwd w' = cwd w ∧ stdout w' = stdout w ∧ renders w' = renders w
    ∧ fs_extends (inodes w) (inodes w').
Proof.
  induction l as [|i l IH]; intros w.
  - exists w. simpl. rewrite app_nil_r. repeat split. apply fs_extends_refl.
  - set (r := curl fetch (picsum_url i) (to +:+ "/" +:+ jpg_name i)
                (inodes w) (cwd w)).
    set (w1 := World r.1 (cwd w) (procs w ++ [curl_args to i]) (stdout w)
                 (renders w)).
    destruct (IH w1) as (w' & E & Hp & Hc & Hs & Hr & Hext).
    exists w'. split; [|split; [|split; [|split; [|split]]]]; try done.
    + rewrite (for_each_cons_Ok _ _ _ _ w1); [done|].
      unfold bind. by rewrite subprocess_run_curl.
    + rewrite Hp. simpl. by rewrite <-app_assoc.
    + eapply fs_extends_trans; [|exact Hext]. apply curl_extends.
Qed.

(** One fetch that succeeds, into a directory that lacks the name. *)
Lemma seed_step_new to i w d es body :
  fetch (picsum_url i) = Some body →
  resolve (inodes w) (cwd w) to = Some d →
  inodes w !! d = Some (IDir es) →
  dir_lookup es (jpg_name i) = None →
  (subprocess_run fetch (curl_args to i) ;;; ret tt) w
  = (Ok tt,
     World (<[d := IDir (es ++ [(jpg_name i, length (inodes w))])]> (inodes w)
            ++ [IFile body])
           (cwd w) (procs w ++ [curl_args to i]) (stdout w) (renders w)).
Proof.
  intros Hf Hr Hd Hl. unfold bind. rewrite subprocess_run_curl.
  unfold curl. rewrite Hf.
  by rewrite (fs_write_new _ _ to d es) by (done || apply jpg_name_valid).
Qed.

(** C5: [download_dataset] never looks at the status of a fetch.  Whatever
    the network does ([fetch] is arbitrary, so any transfer may fail), the
    call returns normally after running the command of every index in
    order; a failed transfer only shows in the exit status that
    [subprocess_run] hands back and the loop drops. *)
Theorem download_dataset_ignores_failures to count w :
  ∃ w',
    download_dataset fetch to count w = (Ok tt, w')
    ∧ procs w' = procs w ++ map (curl_args to) (range count)
    ∧ ∀ i w0, fetch (picsum_url i) = None →
        ∃ w1, subprocess_run fetch (curl_args to i) w0 = (Ok 6%Z, w1)
              ∧ inodes w1 = inodes w0.
Proof.
  destruct (seed_loop to (range count) w) as (w' & E & Hp & _).
  exists w'. split; [done|]. split; [done|].
  intros i w0 Hf. rewrite subprocess_run_curl. unfold curl. rewrite Hf.
  by eexists.
Qed.
(** C4: [download_dataset] runs one [curl] per index of [range count], in
    order and nothing else: [count] commands for the indices
    [0 .. count-1], each asking for the URL of its index (the URLs are
    pairwise distinct) and naming [to/<index>.jpg] as the file to write the
    body to.  With [count = 3], transfers that succeed and an empty
    directory [to], the directory afterwards lists exactly [0.jpg], [1.jpg]
    and [2.jpg], each holding the body fetched for its index. *)
Theorem download_dataset_fetches to count w :
  ∃ w',
    download_dataset fetch to count w = (Ok tt, w')
    ∧ procs w' = procs w ++ map (curl_args to) (range count)
    ∧ (∀ i, curl_args to i
            = ["curl"; "-sL"; picsum_url i; "--output"; to +:+ "/" +:+ jpg_name i])
    ∧ length (range count) = Z.to_nat count
    ∧ (∀ i, i ∈ range count ↔ (0 ≤ i < count)%Z)
    ∧ NoDup (map picsum_url (range count))
    ∧ (∀ d, count = 3%Z →
         (∀ i, i ∈ range 3 → is_Some (fetch (picsum_url i))) →
         resolve (inodes w) (cwd w) to = Some d →
         inodes w !! d = Some (IDir []) →
         os_listdir (inodes w') (cwd w') to = Ok ["0.jpg"; "1.jpg"; "2.jpg"]
         ∧ ∀ i body, i ∈ range 3 → fetch (picsum_url i) = Some body →
             fs_read (inodes w') (cwd w') (to +:+ "/" +:+ jpg_name i) = Ok body).
Proof.
  destruct (seed_loop to (range count) w) as (w' & E & Hp & _).
  exists w'. split; [done|]. split; [done|]. split; [done|].
  split; [apply range_length|]. split; [apply elem_of_range|].
  split.
  { apply NoDup_fmap_2; [|apply range_NoDup]. intros ??. apply picsum_url_inj. }
  intros d -> Hall Hr Hd.
  destruct (Hall 0%Z) as [b0 Hb0]; [by apply elem_of_range|].
  destruct (Hall 1%Z) as [b1 Hb1]; [by apply elem_of_range|].
  destruct (Hall 2%Z) as [b2 Hb2]; [by apply elem_of_range|].
  pose proof (lookup_lt_Some _ _ _ Hd) as Hlt.
  (* the three file systems on the way *)
  pose proof (seed_step_new to 0 w d [] b0 Hb0 Hr Hd eq_refl) as S1.
  pose proof (create_lookup (inodes w) d [] (jpg_name 0) (IFile b0) Hd)
    as (D1 & N1 & L1 & O1).
  pose proof (resolve_extends _ _ _ _ _
                (fs_extends_create (inodes w) d [] (jpg_name 0) (IFile b0) Hd) Hr)
    as R1.
  set (fs1 := <[d := IDir ([] ++ [(jpg_name 0, length (inodes w))])]> (inodes w)
              ++ [IFile b0]) in *.
  set (w1 := World fs1 (cwd w) (procs w ++ [curl_args to 0]) (stdout w) (renders w))
    in *.
  pose proof (seed_step_new to 1 w1 d _ b1 Hb1 R1 D1 eq_refl) as S2.
  pose proof (create_lookup fs1 d _ (jpg_name 1) (IFile b1) D1)
    as (D2 & N2 & L2 & O2).
  pose proof (resolve_extends _ _ _ _ _
                (fs_extends_create fs1 d _ (jpg_name 1) (IFile b1) D1) R1) as R2.
  cbn [inodes cwd procs stdout renders w1] in S2, R2.
  set (fs2 := <[d := IDir (([] ++ [(jpg_name 0, length (inodes w))])
                           ++ [(jpg_name 1, length fs1)])]> fs1
              ++ [IFile b1]) in *.
  set (w2 := World fs2 (cwd w) ((procs w ++ [curl_args to 0]) ++ [curl_args to 1])
               (stdout w) (renders w)) in *.
  pose proof (seed_step_new to 2 w2 d _ b2 Hb2 R2 D2 eq_refl) as S3.
  pose proof (create_lookup fs2 d _ (jpg_name 2) (IFile b2) D2)
    as (D3 & N3 & L3 & O3).
  pose proof (resolve_extends _ _ _ _ _
                (fs_extends_create fs2 d _ (jpg_name 2) (IFile b2) D2) R2) as R3.
  cbn [inodes cwd procs stdout renders w2] in S3, R3.
  set (fs3 := <[d := IDir ((([] ++ [(jpg_name 0, length (inodes w))])
                            ++ [(jpg_name 1, length fs1)])
                           ++ [(jpg_name 2, length fs2)])]> fs2
              ++ [IFile b2]) in *.
  (* the run *)
  unfold download_dataset in E. change (range 3) with [0; 1; 2]%Z in E.
  set (body := λ i, subprocess_run fetch (curl_args to i) ;;; ret tt) in *.
  rewrite (for_each_cons_Ok body 0%Z _ w w1 S1),
    (for_each_cons_Ok body 1%Z _ w1 w2 S2),
    (for_each_cons_Ok body 2%Z _ w2 _ S3) in E.
  injection E as <-. cbn [inodes cwd].
  split.
  - unfold os_listdir, stat. by rewrite R3, D3.
  - intros i data Hi Hf. unfold fs_read, stat.
    rewrite (resolve_child _ _ to (jpg_name i) d _ (jpg_name_valid i) R3 D3).
    apply elem_of_range in Hi.
    assert (i = 0 ∨ i = 1 ∨ i = 2)%Z as [-> | [-> | ->]] by lia.
    + change (dir_lookup _ (jpg_name 0)) with (Some (length (inodes w))).
      cbv beta iota. rewrite O3, O2, N1 by lia. congruence.
    + change (dir_lookup _ (jpg_name 1)) with (Some (length fs1)).
      cbv beta iota. rewrite O3, N2 by lia. congruence.
    + change (dir_lookup _ (jpg_name 2)) with (Some (length fs2)).
      cbv beta iota. rewrite N3. congruence.
Qed.
End Seeder.

Example seeder_without_network :
  let '(r, w) := download_dataset no_network "/d" 3 empty_dir_world in
  r = Ok tt
  ∧ map (λ args, args !! 4) (procs w)
    = [Some "/d/0.jpg"; Some "/d/1.jpg"; Some "/d/2.jpg"]
  ∧ os_listdir (inodes w) (cwd w) "/d" = Ok [].
Proof. vm_compute. auto. Qed.

Lemma download_dataset_fetches_witness :
  ∃ w', download_dataset demo_fetch "/d" 3 empty_dir_world = (Ok tt, w')
        ∧ os_listdir (inodes w') (cwd w') "/d" = Ok ["0.jpg"; "1.jpg"; "2.jpg"].
Proof.
  destruct (download_dataset_fetches demo_fetch "/d" 3 empty_dir_world)
    as (w' & E & _ & _ & _ & _ & _ & H).
  exists w'. split; [exact E|].
  apply (H 1); [reflexivity| |reflexivity|reflexivity].
  intros i _. eexists. reflexivity.
Defined.

(** ** [str.replace] *)

Lemma replace_scan_skip old new s1 s2 :
  replace_scan old new (String.length s1) (s1 +:+ s2) = replace_scan old new 0 s2.
Proof.
  induction s1 as [|c s1 IH]; [by destruct s2|]. by rewrite str_app_cons.
Qed.

(** A match at the front is replaced and the scan goes on behind it. *)
Lemma replace_scan_match old new rest :
  old ≠ "" →
  replace_scan old new 0 (old +:+ rest) = new +:+ replace_scan old new 0 rest.
Proof.
  intros Hold. pose proof (prefix_app old rest) as Hp.
  destruct old as [|c old']; [done|]. rewrite str_app_cons in *.
  cbn [replace_scan]. rewrite Hp. f_equal.
  replace (String.length (String c old') - 1) with (String.length old')
    by (simpl; lia).
  apply replace_scan_skip.
Qed.

Lemma replace_scan_none old new s :
  str_find old s = None → replace_scan old new 0 s = s.
Proof.
  induction s as [|c s IH]; [done|]. cbn [str_find replace_scan].
  destruct (String.prefix old (String c s)); [done|].
  destruct (str_find old s); [done|]. intros _. by rewrite IH.
Qed.

(** The first occurrence is replaced, whatever stands before it. *)
Lemma replace_scan_first old new a b :
  old ≠ "" →
  str_find old (a +:+ old +:+ b) = Some (String.length a) →
  replace_scan old new 0 (a +:+ old +:+ b)
  = a +:+ new +:+ replace_scan old new 0 b.
Proof.
  intros Hold. induction a as [|c a IH]; intros Hf.
  { change ("" +:+ old +:+ b) with (old +:+ b).
    change ("" +:+ new +:+ replace_scan old new 0 b)
      with (new +:+ replace_scan old new 0 b).
    by apply replace_scan_match. }
  rewrite !str_app_cons in *. cbn [str_find replace_scan String.length] in *.
  destruct (String.prefix old (String c (a +:+ old +:+ b))); [done|].
  destruct (str_find old (a +:+ old +:+ b)) as [i|]; [|done].
  injection Hf as ->. by rewrite IH.
Qed.

Lemma str_replace_scan s old new :
  old ≠ "" → str_replace s old new = replace_scan old new 0 s.
Proof. by destruct old. Qed.

Lemma count_sep_app s t : count_sep (s +:+ t) = count_sep s + count_sep t.
Proof.
  induction s as [|c s IH]; [done|]. rewrite str_app_cons. simpl. rewrite IH. lia.
Qed.

Lemma count_sep_no_sep s : no_sep s = true → count_sep s = 0.
Proof.
  induction s as [|c s IH]; [done|]. simpl. intros [Hc Hs]%andb_true_iff.
  apply negb_true_iff in Hc. rewrite Hc. by rewrite IH.
Qed.

Lemma str_find_count old s i :
  str_find old s = Some i → count_sep old ≤ count_sep s.
Proof.
  revert i. induction s as [|c s IH]; intros i; cbn [str_find].
  - destruct (String.prefix old "") eqn:E; [|done].
    apply prefix_true in E as [r E]. destruct old; [simpl; lia|done].
  - destruct (String.prefix old (String c s)) eqn:E.
    + apply prefix_true in E as [r ->]. rewrite count_sep_app. lia.
    + destruct (str_find old s) as [j|]; [|done]. intros _.
      specialize (IH j eq_refl). simpl. lia.
Qed.

Lemma str_find_few_seps old s : count_sep s < count_sep old → str_find old s = None.
Proof.
  intros H. destruct (str_find old s) as [i|] eqn:E; [|done].
  apply str_find_count in E. lia.
Qed.

(** ** A run of the script *)

Section Run.
Variable fetch : string → option string.
Variable jinja_render : string → pyval → result string.

Lemma compile_template_Ok src output data w w' :
  compile_template jinja_render src output data w = (Ok tt, w') →
  ∃ template text,
    fs_read (inodes w) (cwd w) (os_path_join "." src) = Ok template
    ∧ jinja_render template data = Ok text
    ∧ fs_write (inodes w) (cwd w) output text = Ok (inodes w')
    ∧ renders w' = renders w ++ [(template, data)]
    ∧ cwd w' = cwd w.
Proof.
  unfold compile_template.
  intros (template & w1 & [Ht ->]%ask_Ok & H)%bind_Ok.
  apply bind_Ok in H as (text & w2 & Hr & Hu).
  unfold render in Hr. injection Hr as Hr <-.
  apply update_Ok in Hu as (Hu & Hc & _ & _ & Hrs). cbn in Hu, Hc, Hrs.
  exists template, text. repeat split; try done.
  cbv zeta in Ht. by destruct (os_path_isfile (inodes w) (cwd w) _).
Qed.

(** [main] is [prepare] followed by collecting and composing. *)
Lemma main_split fuel args w :
  main fetch jinja_render fuel args w
  = (let! media_dir := prepare fetch args in
     let! pictures := ask (λ fs cwd, get_paths fuel fs cwd media_dir) in
     compile_template jinja_render "template.html"
       (os_path_join media_dir "index.html")
       (PDict [("pictures",
                PList (build_pictures (arg_prefix args) media_dir pictures))])) w.
Proof.
  symmetry. unfold main, prepare.
  rewrite bind_assoc. apply bind_ext. intros media_dir w1.
  rewrite bind_assoc. apply bind_ext. intros present w2.
  rewrite bind_assoc. apply bind_ext. intros [] w3.
  rewrite bind_assoc. apply bind_ext. intros [] w4.
  by rewrite bind_ret_l.
Qed.

Lemma prepare_Ok args w media_dir w1 :
  prepare fetch args w = (Ok media_dir, w1) →
  os_path_abspath (cwd w) (arg_media_dir args) = Ok media_dir
  ∧ fs_extends (inodes w) (inodes w1)
  ∧ cwd w1 = cwd w ∧ renders w1 = renders w.
Proof.
  unfold prepare.
  intros (md & w0 & [Ha ->]%ask_Ok & H)%bind_Ok.
  apply bind_Ok in H as (present & w0' & [_ ->]%ask_Ok & H).
  apply bind_Ok in H as ([] & wa & Hmk & H).
  apply bind_Ok in H as ([] & wb & Hdl & H).
  injection H as -> ->.
  assert (fs_extends (inodes w) (inodes wa) ∧ cwd wa = cwd w
          ∧ renders wa = renders w) as (Xa & Ca & Ra).
  { destruct (negb present).
    - apply bind_Ok in Hmk as ([] & wp & Hp & Hu).
      injection Hp as <-.
      apply update_Ok in Hu as (Hu & ? & _ & _ & ?). cbn in *.
      split; [by eapply fs_mkdir_extends|done].
    - injection Hmk as <-. split; [apply fs_extends_refl|done]. }
  assert (fs_extends (inodes wa) (inodes w1) ∧ cwd w1 = cwd wa
          ∧ renders w1 = renders wa) as (Xb & Cb & Rb).
  { destruct (0 <? arg_init_dataset args)%Z.
    - destruct (seed_loop fetch media_dir (range (arg_init_dataset args)) wa)
        as (w'' & E & _ & ? & _ & ? & ?).
      unfold download_dataset in Hdl. rewrite E in Hdl. by injection Hdl as <-.
    - injection Hdl as <-. split; [apply fs_extends_refl|done]. }
  split; [done|]. split; [by eapply fs_extends_trans|]. split; congruence.
Qed.

(** What a run that completes has done. *)
Lemma main_Ok fuel args w w' :
  main fetch jinja_render fuel args w = (Ok tt, w') →
  ∃ media_dir w1 pictures template text,
    prepare fetch args w = (Ok media_dir, w1)
    ∧ get_paths fuel (inodes w1) (cwd w1) media_dir = Ok pictures
    ∧ fs_read (inodes w1) (cwd w1) (os_path_join "." "template.html") = Ok template
    ∧ jinja_render template
        (PDict [("pictures",
                 PList (build_pictures (arg_prefix args) media_dir pictures))])
      = Ok text
    ∧ fs_write (inodes w1) (cwd w1) (os_path_join media_dir "index.html") text
      = Ok (inodes w')
    ∧ renders w' = renders w1
                   ++ [(template,
                        PDict [("pictures",
                                PList (build_pictures (arg_prefix args)
                                         media_dir pictures))])]
    ∧ cwd w' = cwd w1.
Proof.
  rewrite main_split.
  intros (media_dir & w1 & Hp & H)%bind_Ok.
  apply bind_Ok in H as (pictures & w1' & [Hg ->]%ask_Ok & H).
  apply compile_template_Ok in H as (template & text & ? & ? & ? & ? & ?).
  by exists media_dir, w1, pictures, template, text.
Qed.

Lemma abspath_nonempty cwd path p : os_path_abspath cwd path = Ok p → p ≠ "".
Proof.
  destruct path as [path|]; [|done]. intros [= <-]. unfold os_path_normpath.
  repeat case_bool_decide; try done.
Qed.
End Run.

Lemma get_paths_loop_members isfile recurse root files :
  ∀ output out,
    get_paths_loop isfile recurse root files output = Ok out →
    (∀ x, x ∈ output → x ∈ out)
    ∧ (∀ n, n ∈ files → isfile (os_path_join root n) = true →
         os_path_join root n ∈ out).
Proof.
  induction files as [|file files IH]; intros output out H.
  - injection H as <-. split; [done|]. by intros n ?%elem_of_nil.
  - cbn [get_paths_loop] in H.
    destruct (isfile (os_path_join root file)) eqn:Ef.
    + apply IH in H as [Hacc Hfiles]. split.
      * intros x Hx. apply Hacc, elem_of_app. by left.
      * intros n [->|Hn]%elem_of_cons Hf; [|by apply Hfiles].
        apply Hacc, elem_of_app. right. left.
    + destruct (recurse (os_path_join root file)) as [sub| |]; [|done..].
      apply IH in H as [Hacc Hfiles]. split.
      * intros x Hx. apply Hacc, elem_of_app. by left.
      * intros n [->|Hn]%elem_of_cons Hf; [congruence|by apply Hfiles].
Qed.

(** A regular file listed in the root directory is among the paths
    collected. *)
Lemma get_paths_direct_file fuel fs cwd root names n out :
  get_paths fuel fs cwd root = Ok out →
  os_listdir fs cwd root = Ok names → n ∈ names →
  os_path_isfile fs cwd (os_path_join root n) = true →
  os_path_join root n ∈ out.
Proof.
  intros Hg Hl Hn Hf. destruct fuel as [|fuel]; [done|].
  cbn [get_paths] in Hg. rewrite Hl in Hg.
  apply get_paths_loop_members in Hg as [_ Hg]. by apply Hg.
Qed.

Lemma build_pictures_prefix prefix media_dir pictures :
  prefix ≠ "" →
  build_pictures prefix media_dir pictures = map (record prefix media_dir) pictures.
Proof. intros H. unfold build_pictures. by rewrite bool_decide_eq_false_2. Qed.

Lemma build_pictures_no_prefix media_dir pictures :
  build_pictures "" media_dir pictures = map PStr pictures.
Proof. reflexivity. Qed.

(** ** Arguments, prefix and records *)

Section Claims.
Variable fetch : string → option string.
Variable jinja_render : string → pyval → result string.

(** C8: a run without [-media-dir] fails.  [argparse] leaves [None] for the
    option, [os.path.abspath(None)] raises [TypeError], the process ends
    with status 1, and nothing has been created, fetched, collected or
    rendered: the world is as it was. *)
Theorem missing_media_dir_fails fuel args w :
  arg_media_dir args = None →
  main fetch jinja_render fuel args w = (Raise TypeError, w)
  ∧ exit_status (main fetch jinja_render fuel args w).1 = Some 1%Z.
Proof. intros H. unfold main, bind, ask. by rewrite H. Qed.

(** C3: with an empty prefix the renderer gets, under ["pictures"], the
    list of the collected paths as it is, each element the path string
    itself. *)
Theorem empty_prefix_passes_paths fuel args w w' :
  arg_prefix args = "" →
  main fetch jinja_render fuel args w = (Ok tt, w') →
  ∃ media_dir w1 pictures template,
    prepare fetch args w = (Ok media_dir, w1)
    ∧ get_paths fuel (inodes w1) (cwd w1) media_dir = Ok pictures
    ∧ renders w' = renders w1
                   ++ [(template, PDict [("pictures", PList (map PStr pictures))])].
Proof.
  intros Hp (media_dir & w1 & pictures & template & text & Hprep & Hg & _ & _
             & _ & Hr & _)%main_Ok.
  rewrite Hp, build_pictures_no_prefix in Hr.
  by exists media_dir, w1, pictures, template.
Qed.

(** C2: with a non-empty prefix [X] and the media root [/a/b], the renderer
    gets one record per collected path, in order, and the record of a path
    [/a/b/c/d.jpg] (a file [d.jpg] in a directory [c] of the media root) is
    [{"key": X + "c/d.jpg"}]. *)
Theorem prefix_replaces_media_root fuel args w w' X :
  arg_prefix args = X → X ≠ "" →
  os_path_abspath (cwd w) (arg_media_dir args) = Ok "/a/b" →
  main fetch jinja_render fuel args w = (Ok tt, w') →
  ∃ w1 pictures template,
    prepare fetch args w = (Ok "/a/b", w1)
    ∧ get_paths fuel (inodes w1) (cwd w1) "/a/b" = Ok pictures
    ∧ renders w' = renders w1
                   ++ [(template,
                        PDict [("pictures", PList (map (record X "/a/b") pictures))])]
    ∧ (∀ c d, no_sep c = true → no_sep d = true →
         record X "/a/b" ("/a/b/" +:+ c +:+ "/" +:+ d +:+ ".jpg")
         = PDict [("key", PStr (X +:+ c +:+ "/" +:+ d +:+ ".jpg"))])
    ∧ (∀ rest, str_find "/a/b/" rest = None →
         record X "/a/b" ("/a/b/" +:+ rest) = PDict [("key", PStr (X +:+ rest))]).
Proof.
  intros HX Hne Habs (media_dir & w1 & pictures & template & text & Hprep & Hg
                      & _ & _ & _ & Hr & _)%main_Ok.
  pose proof Hprep as (Habs' & _)%prepare_Ok.
  rewrite Habs in Habs'. injection Habs' as <-.
  rewrite HX, build_pictures_prefix in Hr by done.
  assert (∀ rest, str_find "/a/b/" rest = None →
            record X "/a/b" ("/a/b/" +:+ rest) = PDict [("key", PStr (X +:+ rest))])
    as Hlead.
  { intros rest Hrest. unfold record. do 4 f_equal.
    change ("/a/b" +:+ "/") with "/a/b/".
    rewrite str_replace_scan by done.
    rewrite (replace_scan_match "/a/b/" X) by done. f_equal.
    by apply replace_scan_none. }
  exists w1, pictures, template. repeat split; try done.
  intros c d Hc Hd. apply Hlead, str_find_few_seps.
  rewrite !count_sep_app, (count_sep_no_sep c), (count_sep_no_sep d) by done.
  simpl. lia.
Qed.
End Claims.

Lemma missing_media_dir_fails_witness :
  main demo_fetch demo_render 5 (Args None 0 "") demo_world
  = (Raise TypeError, demo_world)
  ∧ exit_status (main demo_fetch demo_render 5 (Args None 0 "") demo_world).1
    = Some 1%Z.
Proof.
  apply (missing_media_dir_fails demo_fetch demo_render 5 (Args None 0 "")
           demo_world).
  reflexivity.
Defined.

Lemma empty_prefix_passes_paths_witness :
  ∃ media_dir w1 pictures template,
    prepare demo_fetch (Args (Some "/m") 0 "") demo_world = (Ok media_dir, w1)
    ∧ get_paths 5 (inodes w1) (cwd w1) media_dir = Ok pictures
    ∧ renders (main demo_fetch demo_render 5 (Args (Some "/m") 0 "") demo_world).2
      = renders w1 ++ [(template, PDict [("pictures", PList (map PStr pictures))])].
Proof.
  apply (empty_prefix_passes_paths demo_fetch demo_render 5
           (Args (Some "/m") 0 "") demo_world).
  - reflexivity.
  - vm_compute. reflexivity.
Defined.

Lemma prefix_replaces_media_root_witness :
  ∃ w1 pictures template,
    prepare demo_fetch (Args (Some "/a/b") 0 "X") ab_world = (Ok "/a/b", w1)
    ∧ get_paths 9 (inodes w1) (cwd w1) "/a/b" = Ok pictures
    ∧ renders (main demo_fetch demo_render 9 (Args (Some "/a/b") 0 "X") ab_world).2
      = renders w1
        ++ [(template, PDict [("pictures", PList (map (record "X" "/a/b") pictures))])]
    ∧ (∀ c d, no_sep c = true → no_sep d = true →
         record "X" "/a/b" ("/a/b/" +:+ c +:+ "/" +:+ d +:+ ".jpg")
         = PDict [("key", PStr ("X" +:+ c +:+ "/" +:+ d +:+ ".jpg"))])
    ∧ (∀ rest, str_find "/a/b/" rest = None →
         record "X" "/a/b" ("/a/b/" +:+ rest) = PDict [("key", PStr ("X" +:+ rest))]).
Proof.
  apply (prefix_replaces_media_root demo_fetch demo_render 9
           (Args (Some "/a/b") 0 "X") ab_world).
  - reflexivity.
  - discriminate.
  - reflexivity.
  - vm_compute. reflexivity.
Defined.

Example ab_run :
  let '(r, w) := main demo_fetch demo_render 9 (Args (Some "/a/b") 0 "X") ab_world in
  r = Ok tt
  ∧ fs_read (inodes w) (cwd w) "/a/b/index.html"
    = Ok "T:<Xc/d.jpg><Xa/b/c.jpg><XxXy.jpg>".
Proof. vm_compute. auto. Qed.

(** ** Substitution of the media root *)

Lemma media_root_sep_nonempty media_dir : media_dir +:+ "/" ≠ "".
Proof. by destruct media_dir. Qed.

(** C9, as the script has it: with a non-empty prefix every collected path
    becomes a record whose key is the path with the occurrences of
    [MediaRoot + "/"] replaced that a scan from left to right finds, each
    search starting where the previous match ended.  The first occurrence is
    replaced wherever it stands, and after a leading occurrence the first
    occurrence in the rest of the path is replaced as well. *)
Theorem prefix_replaces_left_to_right X media_dir a b :
  X ≠ "" →
  str_find (media_dir +:+ "/") (a +:+ (media_dir +:+ "/") +:+ b)
  = Some (String.length a) →
  (∀ pictures,
     build_pictures X media_dir pictures = map (record X media_dir) pictures)
  ∧ record X media_dir (a +:+ (media_dir +:+ "/") +:+ b)
    = PDict [("key", PStr (a +:+ X +:+ str_replace b (media_dir +:+ "/") X))]
  ∧ record X media_dir ((media_dir +:+ "/") +:+ a +:+ (media_dir +:+ "/") +:+ b)
    = PDict [("key",
              PStr (X +:+ a +:+ X +:+ str_replace b (media_dir +:+ "/") X))].
Proof.
  intros HX Hf. pose proof (media_root_sep_nonempty media_dir) as Hold.
  split; [intros; by apply build_pictures_prefix|].
  unfold record. rewrite !str_replace_scan by done.
  split; do 4 f_equal.
  - by apply replace_scan_first.
  - rewrite replace_scan_match by done. f_equal. by apply replace_scan_first.
Qed.

Lemma prefix_replaces_left_to_right_witness :
  (∀ pictures, build_pictures "P" "/m" pictures = map (record "P" "/m") pictures)
  ∧ record "P" "/m" ("x" +:+ ("/m" +:+ "/") +:+ "y.jpg")
    = PDict [("key", PStr ("x" +:+ "P" +:+ str_replace "y.jpg" ("/m" +:+ "/") "P"))]
  ∧ record "P" "/m" (("/m" +:+ "/") +:+ "x" +:+ ("/m" +:+ "/") +:+ "y.jpg")
    = PDict [("key",
              PStr ("P" +:+ "x" +:+ "P" +:+ str_replace "y.jpg" ("/m" +:+ "/") "P"))].
Proof.
  apply (prefix_replaces_left_to_right "P" "/m" "x" "y.jpg").
  - discriminate.
  - reflexivity.
Defined.

(** C9 fails as stated: [/a/b/a/b/c.jpg] is collected below the media root
    [/a/b] and holds [/a/b/] again at offset 4, overlapping the leading
    occurrence in its last character; the key is [Xa/b/c.jpg], in which that
    occurrence has not been replaced. *)
Lemma overlapping_occurrence_not_replaced :
  get_paths 9 ab_fs "/work" "/a/b"
  = Ok ["/a/b/c/d.jpg"; "/a/b/a/b/c.jpg"; "/a/b/x/a/b/y.jpg"]
  ∧ occurs_at ("/a/b" +:+ "/") 4 "/a/b/a/b/c.jpg" = true
  ∧ build_pictures "X" "/a/b" ["/a/b/a/b/c.jpg"] = [PDict [("key", PStr "Xa/b/c.jpg")]]
  ∧ ¬ replaced_at ("/a/b" +:+ "/") "X" 4 "/a/b/a/b/c.jpg" "Xa/b/c.jpg".
Proof.
  split; [vm_compute; reflexivity|]. split; [reflexivity|]. split; [reflexivity|].
  intros [u Hu].
  change (str_replace _ _ _) with "c.jpg" in Hu.
  pose proof (f_equal String.length Hu) as Hl.
  rewrite str_length_app in Hl. simpl in Hl.
  destruct u as [|c1 [|c2 [|c3 [|c4 [|c5 u]]]]]; simpl in Hl; try lia.
  rewrite !str_app_cons in Hu. discriminate Hu.
Qed.

(** ** Overwriting a file in place *)

Lemma same_shape_overwrite fs i old data :
  fs !! i = Some (IFile old) → same_shape fs (<[i := IFile data]> fs).
Proof.
  intros Hi j. destruct (decide (i = j)) as [<-|Hne].
  - rewrite Hi, list_lookup_insert_eq; [done|]. by eapply lookup_lt_Some.
  - rewrite list_lookup_insert_ne by done. by destruct (fs !! j) as [[]|].
Qed.

Lemma walk_same_shape fs fs' cur cs :
  same_shape fs fs' → walk fs' cur cs = walk fs cur cs.
Proof.
  intros Hs. revert cur. induction cs as [|c cs IH]; intros cur; [done|].
  simpl. specialize (Hs cur).
  destruct (fs !! cur) as [[d|es]|], (fs' !! cur) as [[d'|es']|]; try done.
  subst. by destruct (dir_lookup es' c).
Qed.

Lemma resolve_same_shape fs fs' cwd p :
  same_shape fs fs' → resolve fs' cwd p = resolve fs cwd p.
Proof.
  intros Hs. unfold resolve. case_bool_decide; [done|]. by apply walk_same_shape.
Qed.

Lemma isfile_same_shape fs fs' cwd p :
  same_shape fs fs' → os_path_isfile fs' cwd p = os_path_isfile fs cwd p.
Proof.
  intros Hs. unfold os_path_isfile, stat. rewrite (resolve_same_shape fs fs') by done.
  destruct (resolve fs cwd p) as [i|]; [|done]. specialize (Hs i).
  by destruct (fs !! i) as [[]|], (fs' !! i) as [[]|].
Qed.

Lemma exists_same_shape fs fs' cwd p :
  same_shape fs fs' → os_path_exists fs' cwd p = os_path_exists fs cwd p.
Proof.
  intros Hs. unfold os_path_exists, stat. rewrite (resolve_same_shape fs fs') by done.
  destruct (resolve fs cwd p) as [i|]; [|done]. specialize (Hs i).
  by destruct (fs !! i) as [[]|], (fs' !! i) as [[]|].
Qed.

Lemma listdir_same_shape fs fs' cwd p :
  same_shape fs fs' → os_listdir fs' cwd p = os_listdir fs cwd p.
Proof.
  intros Hs. unfold os_listdir, stat. rewrite (resolve_same_shape fs fs') by done.
  destruct (resolve fs cwd p) as [i|]; [|done]. specialize (Hs i).
  destruct (fs !! i) as [[]|], (fs' !! i) as [[]|]; try done. by subst.
Qed.

Lemma get_paths_loop_ext isfile isfile' recurse recurse' root files output :
  (∀ p, isfile' p = isfile p) → (∀ p, recurse' p = recurse p) →
  get_paths_loop isfile' recurse' root files output
  = get_paths_loop isfile recurse root files output.
Proof.
  intros Hf Hr. revert output. induction files as [|file files IH]; intros output.
  - done.
  - cbn [get_paths_loop]. rewrite Hf, Hr.
    destruct (isfile (os_path_join root file)); [apply IH|].
    destruct (recurse (os_path_join root file)); [apply IH|done..].
Qed.

(** The collector sees the shape of the file system only. *)
Lemma get_paths_same_shape fs fs' cwd fuel :
  same_shape fs fs' →
  ∀ root_dir, get_paths fuel fs' cwd root_dir = get_paths fuel fs cwd root_dir.
Proof.
  intros Hs. induction fuel as [|fuel IH]; intros root_dir; [done|].
  cbn [get_paths]. rewrite (listdir_same_shape fs fs') by done.
  destruct (os_listdir fs cwd root_dir) as [files| |]; [|done..].
  apply get_paths_loop_ext; [|done]. intros p. by apply isfile_same_shape.
Qed.

Lemma get_paths_loop_mono isfile recurse recurse' root files :
  (∀ p out, recurse p = Ok out → recurse' p = Ok out) →
  ∀ output out,
    get_paths_loop isfile recurse root files output = Ok out →
    get_paths_loop isfile recurse' root files output = Ok out.
Proof.
  intros Hr. induction files as [|file files IH]; intros output out; [done|].
  cbn [get_paths_loop]. destruct (isfile (os_path_join root file)); [apply IH|].
  destruct (recurse (os_path_join root file)) as [sub| |] eqn:E; [|done..].
  rewrite (Hr _ _ E). apply IH.
Qed.

(** More fuel does not change a result. *)
Lemma get_paths_fuel_mono fs cwd fuel :
  ∀ fuel' root_dir out,
    fuel ≤ fuel' → get_paths fuel fs cwd root_dir = Ok out →
    get_paths fuel' fs cwd root_dir = Ok out.
Proof.
  induction fuel as [|fuel IH]; intros fuel' root_dir out Hle; [done|].
  destruct fuel' as [|fuel']; [lia|]. cbn [get_paths].
  destruct (os_listdir fs cwd root_dir) as [files| |]; [|done..].
  apply get_paths_loop_mono. intros p sub. apply IH. lia.
Qed.

Lemma get_paths_deterministic fs cwd fuel fuel' root_dir out out' :
  get_paths fuel fs cwd root_dir = Ok out →
  get_paths fuel' fs cwd root_dir = Ok out' → out = out'.
Proof.
  intros H H'.
  apply (get_paths_fuel_mono _ _ _ (fuel `max` fuel')) in H; [|lia].
  apply (get_paths_fuel_mono _ _ _ (fuel `max` fuel')) in H'; [|lia].
  congruence.
Qed.

(** A write to a path that is a regular file replaces the contents of its
    inode and nothing else. *)
Lemma fs_write_existing fs cwd p data fs' :
  os_path_isfile fs cwd p = true →
  fs_write fs cwd p data = Ok fs' →
  ∃ i old, fs !! i = Some (IFile old) ∧ fs' = <[i := IFile data]> fs.
Proof.
  intros Hf. unfold fs_write. case_bool_decide as Hp; [done|].
  destruct (parent_and_name fs cwd p) as [[[d es] name]|] eqn:Epn.
  2:{ by destruct (stat fs cwd p) as [[]|]. }
  apply parent_and_name_Some in Epn as (cs & Hcs & Hw & Hd).
  destruct (dir_lookup es name) as [i|] eqn:El.
  - destruct (fs !! i) as [[old|?]|] eqn:Hi; try done. intros [= <-]. eauto.
  - exfalso. unfold os_path_isfile, stat, resolve in Hf.
    rewrite bool_decide_eq_false_2 in Hf by done.
    rewrite Hcs, walk_app, Hw in Hf. simpl in Hf. by rewrite Hd, El in Hf.
Qed.

(** The directory of a path that resolves exists. *)
Lemma resolve_join_parent fs cwd p n i :
  p ≠ "" → valid_name n = true →
  resolve fs cwd (os_path_join p n) = Some i → os_path_exists fs cwd p = true.
Proof.
  intros Hp Hn. unfold os_path_exists, stat, resolve.
  rewrite bool_decide_eq_false_2
    by by apply join_nonempty, valid_name_nonempty.
  rewrite (bool_decide_eq_false_2 (p = "")) by done.
  rewrite full_path_join, components_join_base, walk_app
    by (done || by apply valid_name_no_sep).
  destruct (walk fs 0 (components (full_path cwd p))) as [d|]; [|done].
  simpl. by destruct (fs !! d) as [[]|].
Qed.

Lemma isfile_join_parent fs cwd p n :
  p ≠ "" → valid_name n = true →
  os_path_isfile fs cwd (os_path_join p n) = true → os_path_exists fs cwd p = true.
Proof.
  intros Hp Hn. unfold os_path_isfile, stat.
  destruct (resolve fs cwd (os_path_join p n)) as [i|] eqn:E; [|done].
  intros _. by eapply resolve_join_parent.
Qed.

Lemma same_shape_refl fs : same_shape fs fs.
Proof. intros i. by destruct (fs !! i) as [[]|]. Qed.

Lemma same_shape_trans fs1 fs2 fs3 :
  same_shape fs1 fs2 → same_shape fs2 fs3 → same_shape fs1 fs3.
Proof.
  intros H12 H23 i. specialize (H12 i). specialize (H23 i).
  destruct (fs1 !! i) as [[]|], (fs2 !! i) as [[]|], (fs3 !! i) as [[]|];
    try done. congruence.
Qed.

Lemma is_dir_extends fs fs' cwd p :
  fs_extends fs fs' → is_dir fs cwd p → is_dir fs' cwd p.
Proof.
  intros Hext (d & es & Hr & Hd). specialize (Hext d) as Hd'. rewrite Hd in Hd'.
  destruct Hd' as [more Hd']. exists d, (es ++ more).
  split; [by eapply resolve_extends|done].
Qed.

Lemma entered_extends fs fs' cwd to n :
  fs_extends fs fs' → entered fs cwd to n → entered fs' cwd to n.
Proof.
  intros Hext (d & es & j & Hr & Hd & Hl). specialize (Hext d) as Hd'.
  rewrite Hd in Hd'. destruct Hd' as [more Hd']. exists d, (es ++ more), j.
  split; [by eapply resolve_extends|]. split; [done|].
  by apply dir_lookup_app_Some.
Qed.

Lemma entered_same_shape fs fs' cwd to n :
  same_shape fs fs' → entered fs cwd to n → entered fs' cwd to n.
Proof.
  intros Hs (d & es & j & Hr & Hd & Hl). exists d, es, j.
  split; [by rewrite (resolve_same_shape fs fs')|]. split; [|done].
  specialize (Hs d). rewrite Hd in Hs.
  destruct (fs' !! d) as [[]|]; try done. by subst.
Qed.

(** The directory of a regular file is a directory. *)
Lemma isfile_join_is_dir fs cwd p n :
  p ≠ "" → valid_name n = true →
  os_path_isfile fs cwd (os_path_join p n) = true → is_dir fs cwd p.
Proof.
  intros Hp Hn. unfold os_path_isfile, stat, is_dir, resolve.
  rewrite bool_decide_eq_false_2
    by by apply join_nonempty, valid_name_nonempty.
  rewrite (bool_decide_eq_false_2 (p = "")) by done.
  rewrite full_path_join, components_join_base, walk_app
    by (done || by apply valid_name_no_sep).
  destruct (walk fs 0 (components (full_path cwd p))) as [d|]; [|done].
  simpl. destruct (fs !! d) as [[|es]|] eqn:Hd; try done. intros _.
  by exists d, es.
Qed.

Lemma parent_and_name_child fs cwd to n d es :
  valid_name n = true →
  resolve fs cwd to = Some d → fs !! d = Some (IDir es) →
  parent_and_name fs cwd (to +:+ "/" +:+ n) = Some (d, es, n).
Proof.
  intros Hn Hr Hd. pose proof (resolve_Some_nonempty _ _ _ _ Hr) as Hto.
  unfold resolve in Hr. rewrite bool_decide_eq_false_2 in Hr by done.
  unfold parent_and_name.
  by rewrite components_child, last_snoc, removelast_last, Hr, Hd.
Qed.

(** A write to a name the directory holds changes no directory. *)
Lemma fs_write_entered fs cwd to n data fs' :
  valid_name n = true → entered fs cwd to n →
  fs_write fs cwd (to +:+ "/" +:+ n) data = Ok fs' → same_shape fs fs'.
Proof.
  intros Hn (d & es & j & Hr & Hd & Hl).
  pose proof (resolve_Some_nonempty _ _ _ _ Hr) as Hto.
  unfold fs_write. rewrite bool_decide_eq_false_2 by by apply app_sep_nonempty.
  rewrite (parent_and_name_child _ _ _ _ d es) by done. rewrite Hl.
  destruct (fs !! j) as [[old|]|] eqn:Hj; try done.
  intros [= <-]. by eapply same_shape_overwrite.
Qed.

(** After a write into a directory, failed or not, the directory holds the
    name. *)
Lemma fs_write_enters fs cwd to n data :
  valid_name n = true → is_dir fs cwd to →
  entered (match fs_write fs cwd (to +:+ "/" +:+ n) data with
           | Ok fs' => fs'
           | _ => fs
           end) cwd to n.
Proof.
  intros Hn (d & es & Hr & Hd).
  pose proof (resolve_Some_nonempty _ _ _ _ Hr) as Hto.
  destruct (dir_lookup es n) as [j|] eqn:Hl.
  - assert (entered fs cwd to n) as He by by exists d, es, j.
    destruct (fs_write fs cwd (to +:+ "/" +:+ n) data) as [fs'| |] eqn:E; try done.
    eapply entered_same_shape; [|done]. by eapply fs_write_entered.
  - rewrite (fs_write_new _ _ _ d es) by done.
    pose proof (fs_extends_create fs d es n (IFile data) Hd) as Hext.
    destruct (create_lookup fs d es n (IFile data) Hd) as (Hd' & _).
    exists d, (es ++ [(n, length fs)]), (length fs).
    split; [by eapply resolve_extends|]. split; [done|].
    by apply dir_lookup_app_None.
Qed.

(** ** The page composer and its own output *)

Section Composer.
Variable fetch : string → option string.
Variable jinja_render : string → pyval → result string.

Lemma curl_enters to i fs cwd body :
  is_dir fs cwd to → fetch (picsum_url i) = Some body →
  entered (curl fetch (picsum_url i) (to +:+ "/" +:+ jpg_name i) fs cwd).1
    cwd to (jpg_name i).
Proof.
  intros Hdir Hf. unfold curl. rewrite Hf.
  pose proof (fs_write_enters fs cwd to (jpg_name i) body (jpg_name_valid i) Hdir)
    as He.
  by destruct (fs_write fs cwd (to +:+ "/" +:+ jpg_name i) body).
Qed.

Lemma curl_same_shape to i fs cwd :
  (is_Some (fetch (picsum_url i)) → entered fs cwd to (jpg_name i)) →
  same_shape fs (curl fetch (picsum_url i) (to +:+ "/" +:+ jpg_name i) fs cwd).1.
Proof.
  intros He. unfold curl.
  destruct (fetch (picsum_url i)) as [body|]; [|apply same_shape_refl].
  destruct (fs_write fs cwd (to +:+ "/" +:+ jpg_name i) body) as [fs'| |] eqn:E;
    simpl; [|apply same_shape_refl..].
  eapply fs_write_entered; [apply jpg_name_valid|by apply He|done].
Qed.

Lemma for_each_seed_cons to i l w :
  for_each (i :: l) (λ i, subprocess_run fetch (curl_args to i) ;;; ret tt) w
  = for_each l (λ i, subprocess_run fetch (curl_args to i) ;;; ret tt)
      (World (curl fetch (picsum_url i) (to +:+ "/" +:+ jpg_name i)
                (inodes w) (cwd w)).1
             (cwd w) (procs w ++ [curl_args to i]) (stdout w) (renders w)).
Proof.
  apply for_each_cons_Ok. unfold bind. by rewrite subprocess_run_curl.
Qed.

(** After seeding a directory, it holds the name of every index whose
    transfer succeeds. *)
Lemma seed_loop_enters to l :
  ∀ w w',
    is_dir (inodes w) (cwd w) to →
    for_each l (λ i, subprocess_run fetch (curl_args to i) ;;; ret tt) w
    = (Ok tt, w') →
    ∀ i, i ∈ l → is_Some (fetch (picsum_url i)) →
      entered (inodes w') (cwd w') to (jpg_name i).
Proof.
  induction l as [|i0 l IH]; intros w w' Hdir E i Hi Hf.
  { by apply elem_of_nil in Hi. }
  rewrite for_each_seed_cons in E.
  set (fs1 := (curl fetch (picsum_url i0) (to +:+ "/" +:+ jpg_name i0)
                 (inodes w) (cwd w)).1) in *.
  set (w1 := World fs1 (cwd w) (procs w ++ [curl_args to i0]) (stdout w)
               (renders w)) in *.
  assert (fs_extends (inodes w) fs1) as Hext1 by apply curl_extends.
  destruct (seed_loop fetch to l w1) as (w'' & E' & _ & Hc & _ & _ & Hext).
  rewrite E in E'. injection E' as <-.
  apply elem_of_cons in Hi as [->|Hi].
  - destruct Hf as [body Hf]. rewrite Hc.
    eapply entered_extends; [exact Hext|]. by eapply curl_enters.
  - apply (IH w1 w'); [|done..]. by eapply is_dir_extends.
Qed.

(** Seeding again changes no directory. *)
Lemma seed_loop_same_shape to l :
  ∀ w w',
    (∀ i, i ∈ l → is_Some (fetch (picsum_url i)) →
       entered (inodes w) (cwd w) to (jpg_name i)) →
    for_each l (λ i, subprocess_run fetch (curl_args to i) ;;; ret tt) w
    = (Ok tt, w') →
    same_shape (inodes w) (inodes w').
Proof.
  induction l as [|i0 l IH]; intros w w' He E.
  { injection E as <-. apply same_shape_refl. }
  rewrite for_each_seed_cons in E.
  set (fs1 := (curl fetch (picsum_url i0) (to +:+ "/" +:+ jpg_name i0)
                 (inodes w) (cwd w)).1) in *.
  set (w1 := World fs1 (cwd w) (procs w ++ [curl_args to i0]) (stdout w)
               (renders w)) in *.
  assert (same_shape (inodes w) fs1) as Hs1.
  { apply curl_same_shape. intros Hf. apply He; [left|done]. }
  apply (same_shape_trans _ fs1); [exact Hs1|].
  apply (IH w1 w'); [|exact E]. intros i Hi Hf. cbn [inodes cwd w1].
  eapply entered_same_shape; [exact Hs1|]. apply He; [by right|done].
Qed.


(** Every run that completes has written what the renderer returned to
    [<MediaRoot>/index.html]. *)
Lemma main_writes_index_html fuel args w w' :
  main fetch jinja_render fuel args w = (Ok tt, w') →
  ∃ media_dir template data text,
    os_path_abspath (cwd w) (arg_media_dir args) = Ok media_dir
    ∧ last (renders w') = Some (template, data)
    ∧ jinja_render template data = Ok text
    ∧ fs_read (inodes w') (cwd w') (os_path_join media_dir "index.html") = Ok text.
Proof.
  intros (m & w1 & p & t & x & Hp & _ & _ & Hj & Hw & Hr & Hc)%main_Ok.
  apply prepare_Ok in Hp as (Ha & _).
  eexists m, t, _, x. split; [done|]. split; [by rewrite Hr, last_snoc|].
  split; [done|]. rewrite Hc. by eapply fs_write_read.
Qed.

(** When the media directory exists, preparing is at most seeding. *)
Lemma prepare_existing args w media_dir m w1 :
  os_path_abspath (cwd w) (arg_media_dir args) = Ok media_dir →
  os_path_exists (inodes w) (cwd w) media_dir = true →
  prepare fetch args w = (Ok m, w1) →
  m = media_dir
  ∧ if (0 <? arg_init_dataset args)%Z
    then download_dataset fetch media_dir (arg_init_dataset args) w = (Ok tt, w1)
    else w1 = w.
Proof.
  intros Ha He. unfold prepare, bind, ask. rewrite Ha, He. simpl.
  destruct (0 <? arg_init_dataset args)%Z.
  - destruct (download_dataset fetch media_dir (arg_init_dataset args) w)
      as [[[]| |] w2]; [|done..].
    by intros [= <- <-].
  - by intros [= <- <-].
Qed.

(** C7, as the script has it: the page is always written to
    [<MediaRoot>/index.html], over what a regular file there held.  When the
    media root already holds [index.html] as a regular file and both runs
    render the same template source, two runs in a row collect the same
    paths, render the same data and leave byte-identical contents in
    [index.html]. *)
Theorem rerun_leaves_index_html_unchanged
    fuel1 fuel2 args w w1 w2 media_dir :
  os_path_abspath (cwd w) (arg_media_dir args) = Ok media_dir →
  os_path_isfile (inodes w) (cwd w) (os_path_join media_dir "index.html") = true →
  main fetch jinja_render fuel1 args w = (Ok tt, w1) →
  main fetch jinja_render fuel2 args w1 = (Ok tt, w2) →
  fst <$> last (renders w1) = fst <$> last (renders w2) →
  ∃ template data text,
    last (renders w1) = Some (template, data)
    ∧ last (renders w2) = Some (template, data)
    ∧ jinja_render template data = Ok text
    ∧ fs_read (inodes w1) (cwd w1) (os_path_join media_dir "index.html") = Ok text
    ∧ fs_read (inodes w2) (cwd w2) (os_path_join media_dir "index.html") = Ok text.
Proof.
  intros Ha Hf
    (m1 & wa & p1 & t1 & x1 & Hp1 & Hg1 & _ & Hj1 & Hw1 & Hr1 & Hc1)%main_Ok
    (m2 & wb & p2 & t2 & x2 & Hp2 & Hg2 & _ & Hj2 & Hw2 & Hr2 & Hc2)%main_Ok
    Htpl.
  pose proof (abspath_nonempty _ _ _ Ha) as Hne.
  pose proof (isfile_join_parent _ _ media_dir "index.html" Hne eq_refl Hf) as He.
  pose proof (isfile_join_is_dir _ _ media_dir "index.html" Hne eq_refl Hf) as Hdir.
  (* the first run: seeding only extends, the page is overwritten in place *)
  pose proof Hp1 as (_ & Hexta & Hca & _)%prepare_Ok.
  apply (prepare_existing _ _ media_dir) in Hp1 as [-> HA]; [|done..].
  pose proof (isfile_extends _ _ _ _ Hexta Hf) as Hfa. rewrite <-Hca in Hfa.
  destruct (fs_write_existing _ _ _ _ _ Hfa Hw1) as (i & old & Hi1 & E1).
  pose proof (same_shape_overwrite _ i old x1 Hi1) as Hs1. rewrite <-E1 in Hs1.
  (* the second run: seeding again changes no directory *)
  assert (os_path_isfile (inodes w1) (cwd w1) (os_path_join media_dir "index.html")
          = true) as Hf1.
  { by rewrite Hc1, (isfile_same_shape _ _ _ _ Hs1). }
  pose proof (isfile_join_parent _ _ media_dir "index.html" Hne eq_refl Hf1) as He1.
  pose proof Hp2 as (_ & _ & Hcb & _)%prepare_Ok.
  apply (prepare_existing _ _ media_dir) in Hp2 as [-> HB];
    [|by rewrite Hc1, Hca|done].
  assert (same_shape (inodes w1) (inodes wb)) as Hs2.
  { destruct (0 <? arg_init_dataset args)%Z; [|subst wb; apply same_shape_refl].
    unfold download_dataset in HA, HB.
    eapply seed_loop_same_shape; [|exact HB]. intros k Hk Hfk.
    rewrite Hc1. eapply entered_same_shape; [exact Hs1|].
    eapply seed_loop_enters; [exact Hdir|exact HA|done..]. }
  pose proof (same_shape_trans _ _ _ Hs1 Hs2) as Hs.
  rewrite Hcb, Hc1, (get_paths_same_shape _ _ _ _ Hs) in Hg2.
  pose proof (get_paths_deterministic _ _ _ _ _ _ _ Hg1 Hg2) as <-.
  rewrite Hr1, Hr2, !last_snoc in Htpl. injection Htpl as <-.
  rewrite Hj1 in Hj2. injection Hj2 as <-.
  eexists t1, _, x1. split; [by rewrite Hr1, last_snoc|].
  split; [by rewrite Hr2, last_snoc|]. split; [done|].
  split.
  - rewrite Hc1. by eapply fs_write_read.
  - rewrite Hc2. by eapply fs_write_read.
Qed.

(** C10: a run that completes leaves [index.html] as a regular file listed
    in the media root, and the next run over that media root collects
    [<MediaRoot>/index.html] among the pictures it hands to the renderer. *)
Theorem index_html_feeds_next_run fuel args w w' :
  main fetch jinja_render fuel args w = (Ok tt, w') →
  ∃ media_dir,
    os_path_abspath (cwd w) (arg_media_dir args) = Ok media_dir
    ∧ os_path_isfile (inodes w') (cwd w') (os_path_join media_dir "index.html")
      = true
    ∧ (∃ names, os_listdir (inodes w') (cwd w') media_dir = Ok names
                ∧ "index.html" ∈ names)
    ∧ ∀ fuel2 args2 w'',
        arg_media_dir args2 = arg_media_dir args →
        main fetch jinja_render fuel2 args2 w' = (Ok tt, w'') →
        ∃ w1 pictures template,
          prepare fetch args2 w' = (Ok media_dir, w1)
          ∧ get_paths fuel2 (inodes w1) (cwd w1) media_dir = Ok pictures
          ∧ os_path_join media_dir "index.html" ∈ pictures
          ∧ renders w''
            = renders w1
              ++ [(template,
                   PDict [("pictures",
                           PList (build_pictures (arg_prefix args2) media_dir
                                    pictures))])].
Proof.
  intros (media_dir & w0 & p0 & t0 & x0 & Hp0 & _ & _ & _ & Hw0 & _ & Hc0)%main_Ok.
  apply prepare_Ok in Hp0 as (Habs & _ & Hc01 & _).
  pose proof (abspath_nonempty _ _ _ Habs) as Hne.
  assert (os_path_isfile (inodes w') (cwd w') (os_path_join media_dir "index.html")
          = true) as Hfile.
  { rewrite Hc0. eapply fs_read_isfile. by eapply fs_write_read. }
  assert (∃ names, os_listdir (inodes w') (cwd w') media_dir = Ok names
                   ∧ "index.html" ∈ names) as Hlist.
  { rewrite Hc0. by eapply (fs_write_listed _ _ media_dir "index.html"). }
  exists media_dir. split; [done|]. split; [done|]. split; [done|].
  intros fuel2 args2 w'' Hargs
    (m2 & w1 & pictures & template & text & Hp2 & Hg & _ & _ & _ & Hr & _)%main_Ok.
  pose proof Hp2 as (Habs2 & Hext & Hc2 & _)%prepare_Ok.
  rewrite Hargs, Hc0, Hc01, Habs in Habs2. injection Habs2 as <-.
  exists w1, pictures, template. split; [done|]. split; [done|].
  split; [|done].
  destruct Hlist as (names & Hls & Hin).
  destruct (listdir_extends _ _ _ _ _ Hext Hls) as [more Hls'].
  rewrite <-Hc2 in Hls', Hfile.
  eapply get_paths_direct_file; [done|done| |].
  - apply elem_of_app. by left.
  - by eapply isfile_extends.
Qed.
End Composer.

Lemma rerun_leaves_index_html_unchanged_witness :
  ∃ template data text,
    last (renders demo_run2) = Some (template, data)
    ∧ last (renders demo_run3) = Some (template, data)
    ∧ demo_render template data = Ok text
    ∧ fs_read (inodes demo_run2) (cwd demo_run2) (os_path_join "/m" "index.html")
      = Ok text
    ∧ fs_read (inodes demo_run3) (cwd demo_run3) (os_path_join "/m" "index.html")
      = Ok text.
Proof.
  apply (rerun_leaves_index_html_unchanged demo_fetch demo_render 5 5
           demo_args demo_run1 demo_run2 demo_run3 "/m").
  - reflexivity.
  - vm_compute. reflexivity.
  - vm_compute. reflexivity.
  - vm_compute. reflexivity.
  - vm_compute. reflexivity.
Defined.

(** C7 fails as stated: two runs over [/m], with the template untouched and
    the old entries listed in the same order, leave different contents in
    [/m/index.html]; the second run lists the page the first one wrote. *)
Lemma second_run_changes_index_html :
  main demo_fetch demo_render 5 demo_args demo_world = (Ok tt, demo_run1)
  ∧ main demo_fetch demo_render 5 demo_args demo_run1 = (Ok tt, demo_run2)
  ∧ fs_read (inodes demo_run1) "/work" "template.html"
    = fs_read (inodes demo_world) "/work" "template.html"
  ∧ os_listdir (inodes demo_world) "/work" "/m" = Ok ["a.jpg"; "sub"]
  ∧ os_listdir (inodes demo_run1) "/work" "/m" = Ok ["a.jpg"; "sub"; "index.html"]
  ∧ last (renders demo_run1)
    = Some ("T:", PDict [("pictures", PList [PStr "/m/a.jpg"; PStr "/m/sub/b.jpg"])])
  ∧ last (renders demo_run2)
    = Some ("T:", PDict [("pictures", PList [PStr "/m/a.jpg"; PStr "/m/sub/b.jpg";
                                            PStr "/m/index.html"])])
  ∧ fs_read (inodes demo_run1) "/work" "/m/index.html"
    = Ok "T:</m/a.jpg></m/sub/b.jpg>"
  ∧ fs_read (inodes demo_run2) "/work" "/m/index.html"
    = Ok "T:</m/a.jpg></m/sub/b.jpg></m/index.html>"
  ∧ fs_read (inodes demo_run1) "/work" "/m/index.html"
    ≠ fs_read (inodes demo_run2) "/work" "/m/index.html".
Proof.
  repeat split; try (vm_compute; reflexivity).
  vm_compute. discriminate.
Qed.

Lemma index_html_feeds_next_run_witness :
  ∃ media_dir,
    os_path_abspath (cwd demo_world) (arg_media_dir demo_args) = Ok media_dir
    ∧ os_path_isfile (inodes demo_run1) (cwd demo_run1)
        (os_path_join media_dir "index.html") = true
    ∧ (∃ names, os_listdir (inodes demo_run1) (cwd demo_run1) media_dir = Ok names
                ∧ "index.html" ∈ names)
    ∧ ∀ fuel2 args2 w'',
        arg_media_dir args2 = arg_media_dir demo_args →
        main demo_fetch demo_render fuel2 args2 demo_run1 = (Ok tt, w'') →
        ∃ w1 pictures template,
          prepare demo_fetch args2 demo_run1 = (Ok media_dir, w1)
          ∧ get_paths fuel2 (inodes w1) (cwd w1) media_dir = Ok pictures
          ∧ os_path_join media_dir "index.html" ∈ pictures
          ∧ renders w''
            = renders w1
              ++ [(template,
                   PDict [("pictures",
                           PList (build_pictures (arg_prefix args2) media_dir
                                    pictures))])].
Proof.
  apply (index_html_feeds_next_run demo_fetch demo_render 5 demo_args demo_world).
  vm_compute. reflexivity.
Defined.

(** Seeding does not disturb this: with [-init-dataset 2] the second and the
    third run leave the same page. *)
Example seeded_rerun_demo :
  let args := Args (Some "/m") 2 "" in
  let run w := (main demo_fetch demo_render 5 args w).2 in
  let w1 := run demo_world in
  let w2 := run w1 in
  let w3 := run w2 in
  fs_read (inodes w2) "/work" "/m/index.html"
  = Ok "T:</m/a.jpg></m/sub/b.jpg></m/0.jpg></m/1.jpg></m/index.html>"
  ∧ fs_read (inodes w3) "/work" "/m/index.html"
    = fs_read (inodes w2) "/work" "/m/index.html".
Proof. vm_compute. auto. Qed.

Lemma download_dataset_ignores_failures_witness :
  ∃ w',
    download_dataset no_network "/d" 3 empty_dir_world = (Ok tt, w')
    ∧ procs w' = procs empty_dir_world ++ map (curl_args "/d") (range 3)
    ∧ ∀ i w0, no_network (picsum_url i) = None →
        ∃ w1, subprocess_run no_network (curl_args "/d" i) w0 = (Ok 6%Z, w1)
              ∧ inodes w1 = inodes w0.
Proof.
  apply (download_dataset_ignores_failures no_network "/d" 3 empty_dir_world).
Defined.

(** * Further properties of the script *)

(** ** The path collector on any file system *)

Lemma get_paths_loop_sound (isfile : string → bool) recurse root files :
  (∀ p sub, recurse p = Ok sub → Forall (λ q, isfile q = true) sub) →
  ∀ output out,
    Forall (λ q, isfile q = true) output →
    get_paths_loop isfile recurse root files output = Ok out →
    Forall (λ q, isfile q = true) out.
Proof.
  intros Hrec. induction files as [|file files IH]; intros output out Hout H.
  - by injection H as <-.
  - cbn [get_paths_loop] in H.
    destruct (isfile (os_path_join root file)) eqn:Ef.
    + eapply IH; [|exact H]. apply Forall_app. split; [done|].
      by apply Forall_singleton.
    + destruct (recurse (os_path_join root file)) as [sub| |] eqn:Er; [|done..].
      eapply IH; [|exact H]. apply Forall_app. split; [done|]. by eapply Hrec.
Qed.

(** X1: whatever the file system looks like (links, loops elsewhere, odd
    names), every path [get_paths] returns is a regular file: a directory is
    never returned, nor a name that does not resolve. *)
Theorem get_paths_returns_regular_files fuel fs cwd root_dir out :
  get_paths fuel fs cwd root_dir = Ok out →
  ∀ p, p ∈ out → os_path_isfile fs cwd p = true.
Proof.
  revert root_dir out. induction fuel as [|fuel IH]; intros root_dir out H; [done|].
  cbn [get_paths] in H.
  destruct (os_listdir fs cwd root_dir) as [files| |]; [|done..].
  assert (Forall (λ q, os_path_isfile fs cwd q = true) out) as Hall.
  { eapply get_paths_loop_sound; [|by apply Forall_nil|exact H].
    intros p sub Hsub. apply Forall_forall. by apply (IH p). }
  intros p Hp. by eapply Forall_forall in Hall.
Qed.

Lemma get_paths_returns_regular_files_witness :
  os_path_isfile demo_fs "/work" "/m/sub/b.jpg" = true.
Proof.
  apply (get_paths_returns_regular_files 5 demo_fs "/work" "/m"
           ["/m/a.jpg"; "/m/sub/b.jpg"]).
  - vm_compute. reflexivity.
  - right. left.
Defined.

Lemma get_paths_loop_needs_all (isfile : string → bool) recurse root files :
  ∀ output out,
    get_paths_loop isfile recurse root files output = Ok out →
    ∀ n, n ∈ files → isfile (os_path_join root n) = false →
      ∃ sub, recurse (os_path_join root n) = Ok sub.
Proof.
  induction files as [|file files IH]; intros output out H n Hn Hf.
  - by apply elem_of_nil in Hn.
  - cbn [get_paths_loop] in H. apply elem_of_cons in Hn as [->|Hn].
    + rewrite Hf in H.
      destruct (recurse (os_path_join root file)) as [sub| |]; [|done..]. eauto.
    + destruct (isfile (os_path_join root file)); [by eapply IH|].
      destruct (recurse (os_path_join root file)) as [sub| |]; [|done..].
      by eapply IH.
Qed.

(** X2: [get_paths] gives no partial result.  When the call on any listed
    entry that is not a regular file does not return, be it an exception or
    endless recursion, the call on the directory does not return a list
    either. *)
Theorem get_paths_no_partial_result fuel fs cwd root_dir names n :
  os_listdir fs cwd root_dir = Ok names →
  n ∈ names →
  os_path_isfile fs cwd (os_path_join root_dir n) = false →
  (∀ sub, get_paths fuel fs cwd (os_path_join root_dir n) ≠ Ok sub) →
  ∀ out, get_paths (S fuel) fs cwd root_dir ≠ Ok out.
Proof.
  intros Hl Hn Hf Hsub out H. cbn [get_paths] in H. rewrite Hl in H.
  destruct (get_paths_loop_needs_all _ _ _ _ _ _ H n Hn Hf) as [sub Hs].
  by apply (Hsub sub).
Qed.

Lemma get_paths_no_partial_result_witness :
  ¬ ∃ out, get_paths 3 broken_fs "/" "/m" = Ok out.
Proof.
  intros [out H].
  apply (get_paths_no_partial_result 2 broken_fs "/" "/m" ["a.jpg"; "gone"] "gone"
           eq_refl (list_elem_of_further _ _ _ (list_elem_of_here _ _)) eq_refl)
    with (out := out); [|exact H].
  intros sub. vm_compute. discriminate.
Defined.

Lemma get_paths_loop_prefix_Ok (isfile : string → bool) recurse root pre :
  Forall (λ m, isfile (os_path_join root m) = true
               ∨ ∃ sub, isfile (os_path_join root m) = false
                        ∧ recurse (os_path_join root m) = Ok sub) pre →
  ∀ rest output, ∃ output',
    get_paths_loop isfile recurse root (pre ++ rest) output
    = get_paths_loop isfile recurse root rest output'.
Proof.
  induction pre as [|m pre IH]; intros Hpre rest output; [by exists output|].
  apply Forall_cons in Hpre as [Hm Hpre]. cbn [app get_paths_loop].
  destruct Hm as [Hm|(sub & Hm & Hs)].
  - rewrite Hm. by apply IH.
  - rewrite Hm, Hs. by apply IH.
Qed.

(** X3: the exception of the first entry that fails, in listing order, is the
    one [get_paths] raises: when the entries listed before [n] are regular
    files or directories collected without error and the call on [n] raises
    [e], the call on the directory raises [e], whatever is listed after
    [n]. *)
Theorem get_paths_raises_first_error fuel fs cwd root_dir pre n post e :
  os_listdir fs cwd root_dir = Ok (pre ++ n :: post) →
  Forall (λ m, os_path_isfile fs cwd (os_path_join root_dir m) = true
               ∨ ∃ sub, os_path_isfile fs cwd (os_path_join root_dir m) = false
                        ∧ get_paths fuel fs cwd (os_path_join root_dir m) = Ok sub)
         pre →
  os_path_isfile fs cwd (os_path_join root_dir n) = false →
  get_paths fuel fs cwd (os_path_join root_dir n) = Raise e →
  get_paths (S fuel) fs cwd root_dir = Raise e.
Proof.
  intros Hl Hpre Hf He. cbn [get_paths]. rewrite Hl.
  destruct (get_paths_loop_prefix_Ok _ _ root_dir pre Hpre (n :: post) [])
    as [output' ->].
  cbn [get_paths_loop]. by rewrite Hf, He.
Qed.

Lemma get_paths_raises_first_error_witness :
  get_paths 3 broken_fs "/" "/m" = Raise FileNotFoundError.
Proof.
  apply (get_paths_raises_first_error 2 broken_fs "/" "/m" ["a.jpg"] "gone" []).
  - reflexivity.
  - apply Forall_singleton. left. reflexivity.
  - reflexivity.
  - reflexivity.
Defined.

(** X4: [get_paths] never reads a file: replacing the contents of any
    regular file leaves its result as it was. *)
Theorem get_paths_ignores_contents fuel fs cwd root_dir i old data :
  fs !! i = Some (IFile old) →
  get_paths fuel (<[i := IFile data]> fs) cwd root_dir
  = get_paths fuel fs cwd root_dir.
Proof.
  intros Hi. apply get_paths_same_shape. by eapply same_shape_overwrite.
Qed.

Lemma get_paths_ignores_contents_witness :
  get_paths 5 (<[2 := IFile "changed"]> demo_fs) "/work" "/m"
  = get_paths 5 demo_fs "/work" "/m".
Proof.
  apply (get_paths_ignores_contents 5 demo_fs "/work" "/m" 2 "A" "changed").
  reflexivity.
Defined.

Lemma get_paths_loop_concat (isfile : string → bool) recurse root names parts :
  Forall2 (λ n part,
             if isfile (os_path_join root n) then part = [os_path_join root n]
             else recurse (os_path_join root n) = Ok part) names parts →
  ∀ output,
    get_paths_loop isfile recurse root names output = Ok (output ++ concat parts).
Proof.
  induction 1 as [|n part names parts Hn _ IH]; intros output.
  - simpl. by rewrite app_nil_r.
  - cbn [get_paths_loop concat]. rewrite app_assoc.
    destruct (isfile (os_path_join root n)).
    + subst part. apply IH.
    + rewrite Hn. apply IH.
Qed.

(** X5: the result keeps the listing order, depth first: it is the
    concatenation, entry by entry in the order of [os.listdir], of the path
    itself for a regular file and of the result of the recursive call for
    anything else. *)
Theorem get_paths_in_listing_order fuel fs cwd root_dir names parts :
  os_listdir fs cwd root_dir = Ok names →
  Forall2 (λ n part,
             if os_path_isfile fs cwd (os_path_join root_dir n)
             then part = [os_path_join root_dir n]
             else get_paths fuel fs cwd (os_path_join root_dir n) = Ok part)
          names parts →
  get_paths (S fuel) fs cwd root_dir = Ok (concat parts).
Proof.
  intros Hl Hparts. cbn [get_paths]. rewrite Hl.
  by rewrite (get_paths_loop_concat _ _ _ _ parts).
Qed.

Lemma get_paths_in_listing_order_witness :
  get_paths 3 demo_fs "/work" "/m" = Ok (concat [["/m/a.jpg"]; ["/m/sub/b.jpg"]]).
Proof.
  apply (get_paths_in_listing_order 2 demo_fs "/work" "/m" ["a.jpg"; "sub"]).
  - reflexivity.
  - repeat constructor.
Defined.

(** ** The dataset seeder and the file system *)

Lemma fs_write_needs_directory fs cwd to n data fs' :
  to ≠ "" → ¬ is_dir fs cwd to → valid_name n = true →
  fs_write fs cwd (to +:+ "/" +:+ n) data ≠ Ok fs'.
Proof.
  intros Hto Hnd Hn. unfold fs_write.
  rewrite bool_decide_eq_false_2 by by apply app_sep_nonempty.
  destruct (parent_and_name fs cwd (to +:+ "/" +:+ n)) as [[[d es] name]|] eqn:E.
  - exfalso. apply parent_and_name_Some in E as (cs & Hcs & Hw & Hd).
    rewrite components_child in Hcs by done.
    apply app_inj_tail in Hcs as [<- <-].
    apply Hnd. exists d, es. split; [|done].
    unfold resolve. by rewrite bool_decide_eq_false_2.
  - by destruct (stat fs cwd (to +:+ "/" +:+ n)) as [[]|].
Qed.

Section SeederEffects.
Variable fetch : string → option string.

Lemma curl_needs_directory to i fs cwd :
  to ≠ "" → ¬ is_dir fs cwd to →
  (curl fetch (picsum_url i) (to +:+ "/" +:+ jpg_name i) fs cwd).1 = fs.
Proof.
  intros Hto Hnd. unfold curl. destruct (fetch (picsum_url i)) as [body|]; [|done].
  destruct (fs_write fs cwd (to +:+ "/" +:+ jpg_name i) body) as [fs'| |] eqn:E;
    [|done..].
  exfalso. by eapply fs_write_needs_directory; [| |apply jpg_name_valid|exact E].
Qed.

Lemma seed_loop_needs_directory to l :
  to ≠ "" →
  ∀ w, ¬ is_dir (inodes w) (cwd w) to →
    ∃ w',
      for_each l (λ i, subprocess_run fetch (curl_args to i) ;;; ret tt) w
      = (Ok tt, w')
      ∧ inodes w' = inodes w ∧ cwd w' = cwd w
      ∧ procs w' = procs w ++ map (curl_args to) l
      ∧ stdout w' = stdout w ∧ renders w' = renders w.
Proof.
  intros Hto. induction l as [|i l IH]; intros w Hnd.
  - exists w. simpl. by rewrite app_nil_r.
  - rewrite for_each_seed_cons, curl_needs_directory by done.
    destruct (IH (World (inodes w) (cwd w) (procs w ++ [curl_args to i])
                    (stdout w) (renders w)) Hnd)
      as (w' & E & Hi & Hc & Hp & Hs & Hr).
    exists w'. split; [done|]. simpl in *.
    by rewrite Hp, <-app_assoc.
Qed.

(** X6: [download_dataset] only adds to the file system.  It always returns,
    and afterwards every regular file is still a regular file and every
    directory still lists every entry it listed; it prints nothing and
    changes neither the working directory nor what has been rendered. *)
Theorem download_dataset_only_adds to count w :
  ∃ w',
    download_dataset fetch to count w = (Ok tt, w')
    ∧ cwd w' = cwd w ∧ stdout w' = stdout w ∧ renders w' = renders w
    ∧ (∀ p, os_path_isfile (inodes w) (cwd w) p = true →
            os_path_isfile (inodes w') (cwd w') p = true)
    ∧ (∀ p names, os_listdir (inodes w) (cwd w) p = Ok names →
         ∃ names', os_listdir (inodes w') (cwd w') p = Ok names'
                   ∧ ∀ n, n ∈ names → n ∈ names').
Proof.
  destruct (seed_loop fetch to (range count) w) as (w' & E & _ & Hc & Hs & Hr & Hext).
  exists w'. split; [done|]. split; [done|]. split; [done|]. split; [done|].
  rewrite Hc. split.
  - intros p. by apply isfile_extends.
  - intros p names Hls.
    destruct (listdir_extends _ _ _ _ _ Hext Hls) as [more Hls'].
    exists (names ++ more). split; [done|]. intros n Hn. apply elem_of_app. by left.
Qed.

(** X7: when [to] is not a directory (it is missing, or a regular file),
    [download_dataset] still runs the command of every index and returns
    normally, and the file system is exactly as it was: nothing is created,
    not even the directory. *)
Theorem download_dataset_without_directory to count w :
  to ≠ "" →
  ¬ is_dir (inodes w) (cwd w) to →
  ∃ w',
    download_dataset fetch to count w = (Ok tt, w')
    ∧ inodes w' = inodes w
    ∧ procs w' = procs w ++ map (curl_args to) (range count).
Proof.
  intros Hto Hnd.
  destruct (seed_loop_needs_directory to (range count) Hto w Hnd)
    as (w' & E & Hi & _ & Hp & _).
  by exists w'.
Qed.

End SeederEffects.

Lemma download_dataset_only_adds_witness :
  ∃ w',
    download_dataset demo_fetch "/m" 2 demo_world = (Ok tt, w')
    ∧ cwd w' = cwd demo_world ∧ stdout w' = stdout demo_world
    ∧ renders w' = renders demo_world
    ∧ (∀ p, os_path_isfile (inodes demo_world) (cwd demo_world) p = true →
            os_path_isfile (inodes w') (cwd w') p = true)
    ∧ (∀ p names, os_listdir (inodes demo_world) (cwd demo_world) p = Ok names →
         ∃ names', os_listdir (inodes w') (cwd w') p = Ok names'
                   ∧ ∀ n, n ∈ names → n ∈ names').
Proof. apply (download_dataset_only_adds demo_fetch "/m" 2 demo_world). Defined.

Lemma download_dataset_without_directory_witness :
  ∃ w',
    download_dataset demo_fetch "/nowhere" 3 empty_dir_world = (Ok tt, w')
    ∧ inodes w' = inodes empty_dir_world
    ∧ procs w' = procs empty_dir_world ++ map (curl_args "/nowhere") (range 3).
Proof.
  apply (download_dataset_without_directory demo_fetch "/nowhere" 3 empty_dir_world).
  - discriminate.
  - intros (d & es & Hr & _). vm_compute in Hr. discriminate Hr.
Defined.


(** ** Writing below a directory *)

Lemma parent_and_name_join fs cwd p n d es :
  valid_name n = true →
  resolve fs cwd p = Some d → fs !! d = Some (IDir es) →
  parent_and_name fs cwd (os_path_join p n) = Some (d, es, n).
Proof.
  intros Hn Hr Hd. pose proof (resolve_Some_nonempty _ _ _ _ Hr) as Hp.
  unfold resolve in Hr. rewrite bool_decide_eq_false_2 in Hr by done.
  unfold parent_and_name.
  rewrite full_path_join, components_join_base
    by (done || by apply valid_name_no_sep).
  by rewrite last_snoc, removelast_last, Hr, Hd.
Qed.

Lemma fs_write_join_new fs cwd p n d es data :
  valid_name n = true →
  resolve fs cwd p = Some d → fs !! d = Some (IDir es) →
  dir_lookup es n = None →
  fs_write fs cwd (os_path_join p n) data
  = Ok (<[d := IDir (es ++ [(n, length fs)])]> fs ++ [IFile data]).
Proof.
  intros Hn Hr Hd Hl. unfold fs_write.
  rewrite bool_decide_eq_false_2
    by by apply join_nonempty, valid_name_nonempty.
  by rewrite (parent_and_name_join _ _ _ _ d es), Hl.
Qed.

Lemma fs_write_join_file fs cwd p n data :
  is_dir fs cwd p → valid_name n = true →
  os_path_isfile fs cwd (os_path_join p n) = true →
  ∃ i old, fs !! i = Some (IFile old)
           ∧ fs_write fs cwd (os_path_join p n) data = Ok (<[i := IFile data]> fs).
Proof.
  intros (d & es & Hr & Hd) Hn Hf. unfold os_path_isfile, stat in Hf.
  rewrite (resolve_join _ _ _ _ d es) in Hf by done.
  destruct (dir_lookup es n) as [i|] eqn:Hl; [|done].
  destruct (fs !! i) as [[old|]|] eqn:Hi; try done.
  exists i, old. split; [done|]. unfold fs_write.
  rewrite bool_decide_eq_false_2
    by by apply join_nonempty, valid_name_nonempty.
  by rewrite (parent_and_name_join _ _ _ _ d es), Hl, Hi.
Qed.

(** Opening a directory for writing fails. *)
Lemma fs_write_is_dir fs cwd p data :
  is_dir fs cwd p → fs_write fs cwd p data = Raise IsADirectoryError.
Proof.
  intros (i & es & Hr & Hi). pose proof (resolve_Some_nonempty _ _ _ _ Hr) as Hp.
  unfold fs_write. rewrite bool_decide_eq_false_2 by done.
  destruct (parent_and_name fs cwd p) as [[[d es'] name]|] eqn:E.
  - apply parent_and_name_Some in E as (cs & Hcs & Hw & Hd).
    unfold resolve in Hr. rewrite bool_decide_eq_false_2 in Hr by done.
    rewrite Hcs, walk_app, Hw in Hr. simpl in Hr. rewrite Hd in Hr.
    destruct (dir_lookup es' name) as [j|]; [|done].
    injection Hr as ->. by rewrite Hi.
  - unfold stat. by rewrite Hr, Hi.
Qed.

Lemma listdir_is_dir fs cwd p names :
  os_listdir fs cwd p = Ok names →
  ∃ d es, resolve fs cwd p = Some d ∧ fs !! d = Some (IDir es)
          ∧ names = map fst es.
Proof.
  unfold os_listdir, stat. destruct (resolve fs cwd p) as [d|]; [|done].
  destruct (fs !! d) as [[|es]|] eqn:Hd; try done. intros [= <-].
  by exists d, es.
Qed.

Lemma listdir_Ok_is_dir fs cwd p names :
  os_listdir fs cwd p = Ok names → is_dir fs cwd p.
Proof. intros (d & es & Hr & Hd & _)%listdir_is_dir. by exists d, es. Qed.

Lemma not_listed_not_entered fs cwd p names n :
  os_listdir fs cwd p = Ok names → n ∉ names → ¬ entered fs cwd p n.
Proof.
  intros (d & es & Hr & Hd & ->)%listdir_is_dir Hn (d0 & es0 & j & Hr0 & Hd0 & Hl0).
  apply Hn. rewrite Hr in Hr0. injection Hr0 as <-.
  rewrite Hd in Hd0. injection Hd0 as <-. by eapply dir_lookup_elem.
Qed.

(** A write to [p/n] succeeds when [p] is a directory that does not list
    [n], or lists it as a regular file. *)
Lemma fs_write_listed_succeeds fs cwd p names n data :
  os_listdir fs cwd p = Ok names → valid_name n = true →
  (os_path_isfile fs cwd (os_path_join p n) = true ∨ n ∉ names) →
  ∃ fs', fs_write fs cwd (os_path_join p n) data = Ok fs'.
Proof.
  intros Hls Hn Hcase. pose proof (listdir_Ok_is_dir _ _ _ _ Hls) as Hdir.
  destruct Hcase as [Hf|Hnot].
  - destruct (fs_write_join_file _ _ p n data Hdir Hn Hf) as (i & old & _ & E).
    eauto.
  - pose proof (not_listed_not_entered _ _ _ _ _ Hls Hnot) as Hne.
    destruct Hdir as (d & es & Hr & Hd).
    destruct (dir_lookup es n) as [j|] eqn:Hl.
    + exfalso. apply Hne. by exists d, es, j.
    + rewrite (fs_write_join_new _ _ _ _ d es) by done. eauto.
Qed.

(** ** The template step *)

Section TemplateStep.
Variable jinja_render : string → pyval → result string.

(** Once the template is found, what is left is rendering and writing. *)
Lemma compile_template_found src output data w template :
  fs_read (inodes w) (cwd w) (os_path_join "." src) = Ok template →
  compile_template jinja_render src output data w
  = match jinja_render template data with
    | Ok text =>
        update (λ fs cwd, fs_write fs cwd output text)
          (World (inodes w) (cwd w) (procs w) (stdout w)
                 (renders w ++ [(template, data)]))
    | Raise e =>
        (Raise e, World (inodes w) (cwd w) (procs w) (stdout w)
                        (renders w ++ [(template, data)]))
    | Diverge =>
        (Diverge, World (inodes w) (cwd w) (procs w) (stdout w)
                        (renders w ++ [(template, data)]))
    end.
Proof.
  intros Ht. unfold compile_template, bind, get_template, ask, render.
  cbv zeta. rewrite (fs_read_isfile _ _ _ _ Ht), Ht.
  by destruct (jinja_render template data).
Qed.

(** X9: [compile_template] loads and renders before it opens the output.  A
    template that is missing (or not a regular file) raises
    [TemplateNotFound] with the world untouched, and a render that raises
    leaves the file system as it was, so an [index.html] from an earlier run
    keeps its contents. *)
Theorem compile_template_fails_before_writing src output data w :
  (os_path_isfile (inodes w) (cwd w) (os_path_join "." src) = false →
   compile_template jinja_render src output data w = (Raise TemplateNotFound, w))
  ∧ (∀ template e,
       fs_read (inodes w) (cwd w) (os_path_join "." src) = Ok template →
       jinja_render template data = Raise e →
       compile_template jinja_render src output data w
       = (Raise e, World (inodes w) (cwd w) (procs w) (stdout w)
                         (renders w ++ [(template, data)]))).
Proof.
  split.
  - intros Hf. unfold compile_template, bind, get_template, ask. cbv zeta.
    by rewrite Hf.
  - intros template e Ht He. by rewrite (compile_template_found _ _ _ _ template), He.
Qed.

(** X10: when the output path is a directory, [compile_template] raises
    [IsADirectoryError] after it has rendered, and nothing is written. *)
Theorem compile_template_output_is_directory src output data w template text :
  fs_read (inodes w) (cwd w) (os_path_join "." src) = Ok template →
  jinja_render template data = Ok text →
  is_dir (inodes w) (cwd w) output →
  compile_template jinja_render src output data w
  = (Raise IsADirectoryError,
     World (inodes w) (cwd w) (procs w) (stdout w) (renders w ++ [(template, data)])).
Proof.
  intros Ht Hj Hd. rewrite (compile_template_found _ _ _ _ template), Hj by done.
  unfold update. cbn [inodes cwd]. by rewrite fs_write_is_dir.
Qed.

(** X11: given a template that is found and renders, a directory [p] and a
    name [n] that [p] does not list or lists as a regular file,
    [compile_template] with output [p/n] returns, and afterwards [p/n] reads
    back as the rendered text, [n] is listed in [p], the render has been
    logged and every regular file is still a regular file. *)
Theorem compile_template_writes src p names n data w template text :
  fs_read (inodes w) (cwd w) (os_path_join "." src) = Ok template →
  jinja_render template data = Ok text →
  os_listdir (inodes w) (cwd w) p = Ok names → valid_name n = true →
  (os_path_isfile (inodes w) (cwd w) (os_path_join p n) = true ∨ n ∉ names) →
  ∃ w',
    compile_template jinja_render src (os_path_join p n) data w = (Ok tt, w')
    ∧ fs_read (inodes w') (cwd w') (os_path_join p n) = Ok text
    ∧ (∃ names', os_listdir (inodes w') (cwd w') p = Ok names' ∧ n ∈ names')
    ∧ renders w' = renders w ++ [(template, data)]
    ∧ (∀ q, os_path_isfile (inodes w) (cwd w) q = true →
            os_path_isfile (inodes w') (cwd w') q = true).
Proof.
  intros Ht Hj Hls Hn Hcase.
  destruct (fs_write_listed_succeeds _ _ _ _ _ text Hls Hn Hcase) as [fs' Hw].
  destruct (listdir_Ok_is_dir _ _ _ _ Hls) as (d & es & Hr & Hd).
  pose proof (resolve_Some_nonempty _ _ _ _ Hr) as Hp.
  rewrite (compile_template_found _ _ _ _ template), Hj by done.
  unfold update. cbn [inodes cwd]. rewrite Hw. eexists. split; [done|].
  cbn [inodes cwd renders]. split; [by eapply fs_write_read|].
  split; [by eapply fs_write_listed|]. split; [done|].
  intros q. apply isfile_extends. by eapply fs_write_extends.
Qed.
End TemplateStep.

Lemma compile_template_fails_before_writing_witness :
  compile_template demo_render "missing.html" "/m/index.html" (PList []) demo_world
  = (Raise TemplateNotFound, demo_world)
  ∧ compile_template failing_render "template.html" "/m/index.html" (PList [])
      demo_world
    = (Raise TemplateError,
       World demo_fs "/work" [] [] [("T:", PList [])]).
Proof.
  destruct (compile_template_fails_before_writing demo_render "missing.html"
              "/m/index.html" (PList []) demo_world) as [H1 _].
  destruct (compile_template_fails_before_writing failing_render "template.html"
              "/m/index.html" (PList []) demo_world) as [_ H2].
  split.
  - apply H1. reflexivity.
  - apply (H2 "T:" TemplateError); reflexivity.
Defined.

Lemma compile_template_output_is_directory_witness :
  compile_template demo_render "template.html" "/m/sub" (PList []) demo_world
  = (Raise IsADirectoryError, World demo_fs "/work" [] [] [("T:", PList [])]).
Proof.
  apply (compile_template_output_is_directory demo_render "template.html" "/m/sub"
           (PList []) demo_world "T:" "T:").
  - reflexivity.
  - reflexivity.
  - exists 3, [("b.jpg", 4)]. split; reflexivity.
Defined.

Lemma compile_template_writes_witness :
  ∃ w',
    compile_template demo_render "template.html" (os_path_join "/m" "index.html")
      (PList []) demo_world = (Ok tt, w')
    ∧ fs_read (inodes w') (cwd w') (os_path_join "/m" "index.html") = Ok "T:"
    ∧ (∃ names', os_listdir (inodes w') (cwd w') "/m" = Ok names'
                 ∧ "index.html" ∈ names')
    ∧ renders w' = renders demo_world ++ [("T:", PList [])]
    ∧ (∀ q, os_path_isfile (inodes demo_world) (cwd demo_world) q = true →
            os_path_isfile (inodes w') (cwd w') q = true).
Proof.
  apply (compile_template_writes demo_render "template.html" "/m" ["a.jpg"; "sub"]
           "index.html" (PList []) demo_world "T:" "T:").
  - reflexivity.
  - reflexivity.
  - reflexivity.
  - reflexivity.
  - right. apply (bool_decide_unpack _). vm_compute. exact I.
Defined.

(** ** Runs that fail *)

Lemma isfile_not_dir fs cwd p :
  os_path_isfile fs cwd p = true → ¬ is_dir fs cwd p.
Proof.
  unfold os_path_isfile, stat. intros Hf (d & es & Hr & Hd).
  by rewrite Hr, Hd in Hf.
Qed.

Lemma isfile_exists fs cwd p :
  os_path_isfile fs cwd p = true → os_path_exists fs cwd p = true.
Proof.
  unfold os_path_isfile, os_path_exists. by destruct (stat fs cwd p) as [[]|].
Qed.

Lemma isfile_listdir fs cwd p :
  os_path_isfile fs cwd p = true → os_listdir fs cwd p = Raise NotADirectoryError.
Proof.
  unfold os_path_isfile, os_listdir. by destruct (stat fs cwd p) as [[]|].
Qed.

Section FailingRuns.
Variable fetch : string → option string.
Variable jinja_render : string → pyval → result string.

(** With the media directory in place, [prepare] returns after seeding, if
    seeding is asked for. *)
Lemma prepare_run args w media_dir :
  os_path_abspath (cwd w) (arg_media_dir args) = Ok media_dir →
  os_path_exists (inodes w) (cwd w) media_dir = true →
  ∃ w1,
    prepare fetch args w = (Ok media_dir, w1)
    ∧ if (0 <? arg_init_dataset args)%Z
      then download_dataset fetch media_dir (arg_init_dataset args) w = (Ok tt, w1)
      else w1 = w.
Proof.
  intros Ha He. unfold prepare, bind, ask. rewrite Ha, He. simpl.
  destruct (0 <? arg_init_dataset args)%Z; [|by exists w].
  destruct (seed_loop fetch media_dir (range (arg_init_dataset args)) w)
    as (w' & E & _).
  unfold download_dataset. rewrite E. by exists w'.
Qed.

(** X12: when [-media-dir] names a regular file, the run raises
    [NotADirectoryError] from [os.listdir]: nothing is created (seeding,
    if asked for, fails silently), nothing is printed or rendered and
    [index.html] is not written. *)
Theorem main_media_dir_is_file fuel args w media_dir :
  os_path_abspath (cwd w) (arg_media_dir args) = Ok media_dir →
  os_path_isfile (inodes w) (cwd w) media_dir = true →
  0 < fuel →
  ∃ w',
    main fetch jinja_render fuel args w = (Raise NotADirectoryError, w')
    ∧ inodes w' = inodes w ∧ stdout w' = stdout w ∧ renders w' = renders w.
Proof.
  intros Ha Hf Hfuel. pose proof (abspath_nonempty _ _ _ Ha) as Hne.
  destruct (prepare_run args w media_dir Ha (isfile_exists _ _ _ Hf))
    as (w1 & Hp & Hw1).
  assert (inodes w1 = inodes w ∧ cwd w1 = cwd w ∧ stdout w1 = stdout w
          ∧ renders w1 = renders w) as (Hi & Hc & Hs & Hr).
  { destruct (0 <? arg_init_dataset args)%Z; [|by subst].
    destruct (seed_loop_needs_directory fetch media_dir
                (range (arg_init_dataset args)) Hne w (isfile_not_dir _ _ _ Hf))
      as (w' & E & ? & ? & _ & ? & ?).
    unfold download_dataset in Hw1. rewrite E in Hw1. by injection Hw1 as <-. }
  exists w1. split; [|done]. rewrite main_split. unfold bind at 1. rewrite Hp.
  unfold bind, ask. destruct fuel as [|fuel]; [lia|].
  cbn [get_paths]. by rewrite Hi, Hc, (isfile_listdir _ _ _ Hf).
Qed.

(** X13: when [<MediaRoot>/index.html] is a directory, no run completes:
    the directory is collected like any other, and opening it for writing
    raises. *)
Theorem main_index_html_is_directory fuel args w media_dir :
  os_path_abspath (cwd w) (arg_media_dir args) = Ok media_dir →
  is_dir (inodes w) (cwd w) (os_path_join media_dir "index.html") →
  ∀ w', main fetch jinja_render fuel args w ≠ (Ok tt, w').
Proof.
  intros Ha Hd w'
    (m & w1 & p & t & x & Hp & _ & _ & _ & Hw & _)%main_Ok.
  apply prepare_Ok in Hp as (Ha' & Hext & Hc & _).
  rewrite Ha in Ha'. injection Ha' as <-.
  rewrite fs_write_is_dir in Hw; [done|].
  rewrite Hc. by eapply is_dir_extends.
Qed.


End FailingRuns.

Lemma main_media_dir_is_file_witness :
  ∃ w',
    main demo_fetch demo_render 5 (Args (Some "/m/a.jpg") 2 "") demo_world
    = (Raise NotADirectoryError, w')
    ∧ inodes w' = inodes demo_world ∧ stdout w' = stdout demo_world
    ∧ renders w' = renders demo_world.
Proof.
  apply (main_media_dir_is_file demo_fetch demo_render 5
           (Args (Some "/m/a.jpg") 2 "") demo_world "/m/a.jpg").
  - reflexivity.
  - reflexivity.
  - lia.
Defined.

Lemma main_index_html_is_directory_witness :
  ¬ ∃ w',
      main demo_fetch demo_render 5 (Args (Some "/") 0 "")
        (World [IDir [("index.html", 1)]; IDir []] "/" [] [] [])
      = (Ok tt, w').
Proof.
  intros [w' H].
  apply (main_index_html_is_directory demo_fetch demo_render 5 (Args (Some "/") 0 "")
           (World [IDir [("index.html", 1)]; IDir []] "/" [] [] []) "/"
           eq_refl (ex_intro _ 1 (ex_intro _ [] (conj eq_refl eq_refl))) w').
  exact H.
Defined.


(** ** Runs that complete *)

(** Entering a new inode in a directory keeps what every file reads. *)
Lemma fs_read_create fs cwd d es name node p data :
  fs !! d = Some (IDir es) →
  fs_read fs cwd p = Ok data →
  fs_read (<[d := IDir (es ++ [(name, length fs)])]> fs ++ [node]) cwd p = Ok data.
Proof.
  intros Hd. unfold fs_read, stat.
  destruct (resolve fs cwd p) as [t|] eqn:Hr; [|done].
  destruct (fs !! t) as [[c|]|] eqn:Ht; try done. intros [= ->].
  rewrite (resolve_extends _ _ _ _ _ (fs_extends_create fs d es name node Hd) Hr).
  destruct (create_lookup fs d es name node Hd) as (_ & _ & _ & Hother).
  rewrite Hother, Ht; [done| |by eapply lookup_lt_Some].
  intros ->. by rewrite Hd in Ht.
Qed.

Lemma build_pictures_nil prefix media_dir : build_pictures prefix media_dir [] = [].
Proof. unfold build_pictures. by destruct (negb _). Qed.

Section CompletedRuns.
Variable fetch : string → option string.
Variable jinja_render : string → pyval → result string.

Lemma main_mkdir_then_renders fuel args w media_dir d es name template text :
  os_path_abspath (cwd w) (arg_media_dir args) = Ok media_dir →
  parent_and_name (inodes w) (cwd w) media_dir = Some (d, es, name) →
  dir_lookup es name = None →
  (arg_init_dataset args ≤ 0)%Z →
  fs_read (inodes w) (cwd w) (os_path_join "." "template.html") = Ok template →
  jinja_render template (PDict [("pictures", PList [])]) = Ok text →
  0 < fuel →
  ∃ w',
    main fetch jinja_render fuel args w = (Ok tt, w')
    ∧ stdout w' = stdout w ++ ["Media directory does not exist. Creating..."]
    ∧ procs w' = procs w
    ∧ renders w' = renders w ++ [(template, PDict [("pictures", PList [])])]
    ∧ os_listdir (inodes w') (cwd w') media_dir = Ok ["index.html"]
    ∧ fs_read (inodes w') (cwd w') (os_path_join media_dir "index.html") = Ok text.
Proof.
  intros Ha Hpn Hl Hinit Ht Hj Hfuel.
  pose proof (abspath_nonempty _ _ _ Ha) as Hne.
  pose proof Hpn as (cs & Hcs & Hw & Hd)%parent_and_name_Some.
  set (fs := inodes w) in *.
  set (fs1 := <[d := IDir (es ++ [(name, length fs)])]> fs ++ [IDir []]).
  (* the media directory is missing, and made *)
  assert (resolve fs (cwd w) media_dir = None) as Hr0.
  { unfold resolve. rewrite bool_decide_eq_false_2 by done.
    rewrite Hcs, walk_app, Hw. simpl. by rewrite Hd, Hl. }
  assert (os_path_exists fs (cwd w) media_dir = false) as He
    by (unfold os_path_exists, stat; by rewrite Hr0).
  assert (fs_mkdir fs (cwd w) media_dir = Ok fs1) as Hmk.
  { unfold fs_mkdir, stat. rewrite Hr0, Hpn. by rewrite bool_decide_eq_false_2. }
  pose proof (fs_extends_create fs d es name (IDir []) Hd) as Hext1.
  destruct (create_lookup fs d es name (IDir []) Hd) as (Hd1 & Hnew & Hlen & _).
  fold fs1 in Hext1, Hd1, Hnew, Hlen.
  assert (resolve fs1 (cwd w) media_dir = Some (length fs)) as Hr1.
  { unfold resolve. rewrite bool_decide_eq_false_2 by done.
    rewrite Hcs, walk_app, (walk_extends _ _ _ _ _ Hext1 Hw). simpl.
    by rewrite Hd1, (dir_lookup_app_None _ _ _ Hl). }
  (* the page is written into it *)
  set (fs2 := <[length fs := IDir ([] ++ [("index.html", length fs1)])]> fs1
              ++ [IFile text]).
  assert (fs_write fs1 (cwd w) (os_path_join media_dir "index.html") text = Ok fs2)
    as Hwr by by apply fs_write_join_new.
  pose proof (fs_extends_create fs1 (length fs) [] "index.html" (IFile text) Hnew)
    as Hext2.
  destruct (create_lookup fs1 (length fs) [] "index.html" (IFile text) Hnew)
    as (Hd2 & _). fold fs2 in Hext2, Hd2.
  exists (World fs2 (cwd w) (procs w)
            (stdout w ++ ["Media directory does not exist. Creating..."])
            (renders w ++ [(template, PDict [("pictures", PList [])])])).
  split.
  - unfold main, bind at 1, ask at 1. rewrite Ha.
    unfold bind at 1, ask at 1. fold fs. rewrite He.
    unfold bind at 1. cbn [negb]. unfold bind at 1, print, update.
    cbn [inodes cwd procs stdout renders]. fold fs. rewrite Hmk.
    unfold bind at 1.
    replace (0 <? arg_init_dataset args)%Z with false by (symmetry; lia).
    unfold ret at 1, bind at 1, ask at 1. cbn [inodes cwd].
    destruct fuel as [|fuel]; [lia|]. cbn [get_paths].
    unfold os_listdir, stat. rewrite Hr1, Hnew. cbn [map get_paths_loop].
    rewrite build_pictures_nil.
    rewrite (compile_template_found _ _ _ _ _ template), Hj
      by by apply fs_read_create.
    unfold update. cbn [inodes cwd procs stdout renders]. by rewrite Hwr.
  - cbn [inodes cwd procs stdout renders]. repeat split.
    + unfold os_listdir, stat.
      by rewrite (resolve_extends _ _ _ _ _ Hext2 Hr1), Hd2.
    + by eapply fs_write_read.
Qed.

(** X15: the first run on a media directory that does not exist yet.  When
    the media directory is [p/n] for a directory [p] that does not list [n],
    no seeding is asked for and the template is found and renders an empty
    list, the run prints its message, creates the directory, collects
    nothing, renders [{"pictures": []}] and returns; the new directory then
    holds [index.html] with the rendered text, and nothing else. *)
Theorem main_creates_media_dir fuel args w p names n template text :
  os_path_abspath (cwd w) (arg_media_dir args) = Ok (os_path_join p n) →
  os_listdir (inodes w) (cwd w) p = Ok names →
  valid_name n = true → n ∉ names →
  (arg_init_dataset args ≤ 0)%Z →
  fs_read (inodes w) (cwd w) (os_path_join "." "template.html") = Ok template →
  jinja_render template (PDict [("pictures", PList [])]) = Ok text →
  0 < fuel →
  ∃ w',
    main fetch jinja_render fuel args w = (Ok tt, w')
    ∧ stdout w' = stdout w ++ ["Media directory does not exist. Creating..."]
    ∧ procs w' = procs w
    ∧ renders w' = renders w ++ [(template, PDict [("pictures", PList [])])]
    ∧ os_listdir (inodes w') (cwd w') (os_path_join p n) = Ok ["index.html"]
    ∧ fs_read (inodes w') (cwd w') (os_path_join (os_path_join p n) "index.html")
      = Ok text.
Proof.
  intros Ha Hls Hn Hnot Hinit Ht Hj Hfuel.
  pose proof (not_listed_not_entered _ _ _ _ _ Hls Hnot) as Hne.
  destruct (listdir_Ok_is_dir _ _ _ _ Hls) as (d & es & Hr & Hd).
  apply (main_mkdir_then_renders fuel args w (os_path_join p n) d es n template text);
    try done.
  - by apply parent_and_name_join.
  - destruct (dir_lookup es n) as [j|] eqn:Hl; [|done].
    exfalso. apply Hne. by exists d, es, j.
Qed.

(** X16: a run over a directory tree.  With no seeding, a template that is
    found and renders the data, and [index.html] either absent from the media
    root or a regular file in it, the run returns for any fuel above the
    depth of the tree: it spawns and prints nothing, renders the files of the
    tree in listing order, depth first (as records when a prefix is given),
    and [<MediaRoot>/index.html] then holds the rendered text. *)
Theorem main_renders_tree fuel args w media_dir es template text :
  os_path_abspath (cwd w) (arg_media_dir args) = Ok media_dir →
  tree_at (inodes w) (cwd w) media_dir (Dir es) →
  depth (Dir es) ≤ fuel →
  (arg_init_dataset args ≤ 0)%Z →
  fs_read (inodes w) (cwd w) (os_path_join "." "template.html") = Ok template →
  jinja_render template
    (PDict [("pictures",
             PList (build_pictures (arg_prefix args) media_dir
                      (tree_files media_dir (Dir es))))])
  = Ok text →
  (os_path_isfile (inodes w) (cwd w) (os_path_join media_dir "index.html") = true
   ∨ "index.html" ∉ map fst es) →
  ∃ w',
    main fetch jinja_render fuel args w = (Ok tt, w')
    ∧ procs w' = procs w ∧ stdout w' = stdout w
    ∧ renders w'
      = renders w
        ++ [(template,
             PDict [("pictures",
                     PList (build_pictures (arg_prefix args) media_dir
                              (tree_files media_dir (Dir es))))])]
    ∧ fs_read (inodes w') (cwd w') (os_path_join media_dir "index.html") = Ok text.
Proof.
  intros Ha Hat Hdepth Hinit Ht Hj Hcase.
  pose proof Hat as [Hls _]%tree_at_dir.
  destruct (listdir_is_dir _ _ _ _ Hls) as (d & es' & Hr & Hd & Hnames).
  assert (is_dir (inodes w) (cwd w) media_dir) as Hdir by by exists d, es'.
  assert (os_path_exists (inodes w) (cwd w) media_dir = true) as He
    by (unfold os_path_exists, stat; by rewrite Hr, Hd).
  assert (∃ fs', fs_write (inodes w) (cwd w) (os_path_join media_dir "index.html")
                   text = Ok fs') as [fs' Hw]
    by by eapply fs_write_listed_succeeds.
  pose proof (get_paths_tree _ _ (Dir es) media_dir fuel Hat Hdepth) as Hg.
  cbv beta iota in Hg.
  exists (World fs' (cwd w) (procs w) (stdout w)
            (renders w
             ++ [(template,
                  PDict [("pictures",
                          PList (build_pictures (arg_prefix args) media_dir
                                   (tree_files media_dir (Dir es))))])])).
  split.
  - unfold main, bind at 1, ask at 1. rewrite Ha.
    unfold bind at 1, ask at 1. rewrite He.
    unfold bind at 1. cbn [negb]. unfold ret at 1.
    unfold bind at 1.
    replace (0 <? arg_init_dataset args)%Z with false by (symmetry; lia).
    unfold ret at 1, bind at 1, ask at 1. rewrite Hg.
    rewrite (compile_template_found _ _ _ _ _ template), Hj by done.
    unfold update. cbn [inodes cwd procs stdout renders]. by rewrite Hw.
  - cbn [inodes cwd procs stdout renders]. repeat split. by eapply fs_write_read.
Qed.
End CompletedRuns.

Lemma main_creates_media_dir_witness :
  ∃ w',
    main demo_fetch demo_render 5 (Args (Some "/new") 0 "pics/") demo_world
    = (Ok tt, w')
    ∧ stdout w' = stdout demo_world ++ ["Media directory does not exist. Creating..."]
    ∧ procs w' = procs demo_world
    ∧ renders w' = renders demo_world ++ [("T:", PDict [("pictures", PList [])])]
    ∧ os_listdir (inodes w') (cwd w') "/new" = Ok ["index.html"]
    ∧ fs_read (inodes w') (cwd w') (os_path_join "/new" "index.html") = Ok "T:".
Proof.
  apply (main_creates_media_dir demo_fetch demo_render 5
           (Args (Some "/new") 0 "pics/") demo_world "/" ["m"; "work"] "new"
           "T:" "T:").
  - reflexivity.
  - reflexivity.
  - reflexivity.
  - apply (bool_decide_unpack _). vm_compute. exact I.
  - simpl. lia.
  - reflexivity.
  - reflexivity.
  - lia.
Defined.

Lemma main_renders_tree_witness :
  ∃ w',
    main demo_fetch demo_render 5 (Args (Some "/m") 0 "") demo_world = (Ok tt, w')
    ∧ procs w' = procs demo_world ∧ stdout w' = stdout demo_world
    ∧ renders w'
      = renders demo_world
        ++ [("T:",
             PDict [("pictures",
                     PList (build_pictures "" "/m" (tree_files "/m" demo_tree)))])]
    ∧ fs_read (inodes w') (cwd w') (os_path_join "/m" "index.html")
      = Ok "T:</m/a.jpg></m/sub/b.jpg>".
Proof.
  apply (main_renders_tree demo_fetch demo_render 5 (Args (Some "/m") 0 "")
           demo_world "/m" [("a.jpg", File); ("sub", Dir [("b.jpg", File)])]
           "T:" "T:</m/a.jpg></m/sub/b.jpg>").
  - reflexivity.
  - simpl. repeat split; vm_compute; reflexivity.
  - simpl. lia.
  - simpl. lia.
  - reflexivity.
  - reflexivity.
  - right. apply (bool_decide_unpack _). vm_compute. exact I.
Defined.

(** ** What a completed run has spawned and printed *)

Section Traces.
Variable fetch : string → option string.
Variable jinja_render : string → pyval → result string.

Lemma compile_template_traces src output data w r w' :
  compile_template jinja_render src output data w = (r, w') →
  procs w' = procs w ∧ stdout w' = stdout w ∧ cwd w' = cwd w.
Proof.
  unfold compile_template, bind, get_template, ask, render, update. cbv zeta.
  cbn [inodes cwd procs stdout renders].
  destruct (os_path_isfile (inodes w) (cwd w) (os_path_join "." src));
    [|by intros [= <- <-]].
  destruct (fs_read (inodes w) (cwd w) (os_path_join "." src)) as [template| |];
    [|by intros [= <- <-]..].
  destruct (jinja_render template data) as [text| |]; [|by intros [= <- <-]..].
  destruct (fs_write (inodes w) (cwd w) output text); by intros [= <- <-].
Qed.

Lemma prepare_traces args w media_dir w1 :
  prepare fetch args w = (Ok media_dir, w1) →
  procs w1
  = procs w ++ (if (0 <? arg_init_dataset args)%Z
                then map (curl_args media_dir) (range (arg_init_dataset args))
                else [])
  ∧ stdout w1
    = stdout w ++ (if os_path_exists (inodes w) (cwd w) media_dir then []
                   else ["Media directory does not exist. Creating..."]).
Proof.
  unfold prepare.
  intros (md & w0 & [Ha ->]%ask_Ok & H)%bind_Ok.
  apply bind_Ok in H as (present & w0' & [Hpres ->]%ask_Ok & H).
  injection Hpres as <-.
  apply bind_Ok in H as ([] & wa & Hmk & H).
  apply bind_Ok in H as ([] & wb & Hdl & H).
  injection H as -> ->.
  assert (procs wa = procs w
          ∧ stdout wa
            = stdout w ++ (if os_path_exists (inodes w) (cwd w) media_dir then []
                           else ["Media directory does not exist. Creating..."]))
    as [Hpa Hsa].
  { destruct (os_path_exists (inodes w) (cwd w) media_dir); cbn [negb] in Hmk.
    - injection Hmk as <-. by rewrite app_nil_r.
    - apply bind_Ok in Hmk as ([] & wp & Hp & Hu). injection Hp as <-.
      by apply update_Ok in Hu as (_ & _ & ? & ? & _). }
  destruct (0 <? arg_init_dataset args)%Z.
  - destruct (seed_loop fetch media_dir (range (arg_init_dataset args)) wa)
      as (w'' & E & Hp & _ & Hs & _).
    unfold download_dataset in Hdl. rewrite E in Hdl. injection Hdl as <-.
    by rewrite Hp, Hs, Hpa, Hsa.
  - injection Hdl as <-. by rewrite app_nil_r.
Qed.

(** X17: what a completed run has spawned and printed.  It has run the
    [curl] commands of the indices [0 .. init_dataset-1] against the media
    directory, in order, when [-init-dataset] is positive and no process
    otherwise; it has printed the creation message when the media directory
    did not exist and nothing otherwise; the working directory is the same. *)
Theorem main_traces fuel args w w' :
  main fetch jinja_render fuel args w = (Ok tt, w') →
  ∃ media_dir,
    os_path_abspath (cwd w) (arg_media_dir args) = Ok media_dir
    ∧ procs w'
      = procs w ++ (if (0 <? arg_init_dataset args)%Z
                    then map (curl_args media_dir) (range (arg_init_dataset args))
                    else [])
    ∧ stdout w'
      = stdout w ++ (if os_path_exists (inodes w) (cwd w) media_dir then []
                     else ["Media directory does not exist. Creating..."])
    ∧ cwd w' = cwd w.
Proof.
  rewrite main_split.
  intros (media_dir & w1 & Hp & H)%bind_Ok.
  apply bind_Ok in H as (pictures & w1' & [_ ->]%ask_Ok & H).
  apply compile_template_traces in H as (Hpr & Hst & Hc).
  pose proof Hp as (Ha & _ & Hc1 & _)%prepare_Ok.
  apply prepare_traces in Hp as [Hp1 Hs1].
  exists media_dir. split; [done|]. rewrite Hpr, Hst, Hc. by rewrite Hp1, Hs1, Hc1.
Qed.
End Traces.

Lemma main_traces_witness :
  ∃ media_dir,
    os_path_abspath (cwd demo_world) (Some "../new") = Ok media_dir
    ∧ procs (main demo_fetch demo_render 5 (Args (Some "../new") 2 "") demo_world).2
      = procs demo_world ++ map (curl_args media_dir) (range 2)
    ∧ stdout (main demo_fetch demo_render 5 (Args (Some "../new") 2 "") demo_world).2
      = stdout demo_world
        ++ (if os_path_exists (inodes demo_world) (cwd demo_world) media_dir then []
            else ["Media directory does not exist. Creating..."])
    ∧ cwd (main demo_fetch demo_render 5 (Args (Some "../new") 2 "") demo_world).2
      = cwd demo_world.
Proof.
  apply (main_traces demo_fetch demo_render 5 (Args (Some "../new") 2 "") demo_world).
  vm_compute. reflexivity.
Defined.

(** ** Keys when a prefix is given *)

Lemma no_double_sep_cons2 a b s :
  no_double_sep (String a (String b s))
  = negb (bool_decide (a = sep) && bool_decide (b = sep))
    && no_double_sep (String b s).
Proof. reflexivity. Qed.

Lemma no_sep_no_double_sep s : no_sep s = true → no_double_sep s = true.
Proof.
  induction s as [|a s IH]; [done|]. cbn [no_sep]. intros [Ha Hs]%andb_true_iff.
  apply negb_true_iff in Ha. destruct s as [|b s]; [done|].
  rewrite no_double_sep_cons2, Ha. cbn [andb negb]. by apply IH.
Qed.

Lemma no_double_sep_tail a s : no_double_sep (String a s) = true → no_double_sep s = true.
Proof.
  destruct s as [|b s]; [done|]. rewrite no_double_sep_cons2.
  by intros [_ ?]%andb_true_iff.
Qed.

Lemma no_double_sep_app a b :
  no_double_sep a = true → no_double_sep b = true →
  str_endswith_sep a = false →
  no_double_sep (a +:+ b) = true.
Proof.
  intros Ha Hb. induction a as [|c a IH]; intros He; [done|].
  destruct a as [|c2 a].
  - cbn [str_endswith_sep] in He. change (String c "" +:+ b) with (String c b).
    destruct b as [|e b]; [done|].
    rewrite no_double_sep_cons2, He. cbn [andb negb]. done.
  - rewrite !str_app_cons, no_double_sep_cons2.
    rewrite no_double_sep_cons2 in Ha.
    apply andb_true_iff in Ha as [Hpair Ha]. rewrite Hpair. cbn [andb].
    rewrite <-str_app_cons. apply IH; [exact Ha|exact He].
Qed.

Lemma no_double_sep_find s : no_double_sep s = true → str_find "//" s = None.
Proof.
  induction s as [|a s IH]; [done|]. intros H. cbn [str_find].
  assert (String.prefix "//" (String a s) = false) as ->.
  { change "//" with (String sep (String sep "")). rewrite prefix_cons.
    destruct s as [|b s]; [by rewrite andb_false_r|].
    rewrite prefix_cons. rewrite no_double_sep_cons2 in H.
    apply andb_true_iff in H as [H _]. apply negb_true_iff in H.
    rewrite (bool_decide_ext (sep = a) (a = sep)) by done.
    rewrite (bool_decide_ext (sep = b) (b = sep)) by done.
    destruct (bool_decide (a = sep)), (bool_decide (b = sep)); done. }
  by rewrite IH by by eapply no_double_sep_tail.
Qed.

Lemma no_double_sep_sep_name n :
  valid_name n = true → no_double_sep ("/" +:+ n) = true.
Proof.
  intros Hn. pose proof (valid_name_no_sep _ Hn) as Hs.
  pose proof (valid_name_nonempty _ Hn) as Hne.
  destruct n as [|e n]; [done|]. change ("/" +:+ String e n) with (String sep (String e n)).
  rewrite no_double_sep_cons2, (no_sep_no_double_sep _ Hs).
  cbn [no_sep] in Hs. apply andb_true_iff in Hs as [He _].
  apply negb_true_iff in He. rewrite He. by rewrite andb_false_r.
Qed.

Lemma clean_join p n : clean p → valid_name n = true → clean (os_path_join p n).
Proof.
  intros [Hnds Hp] Hn. split; [|right; by apply join_proper].
  rewrite join_name by by apply valid_name_no_sep.
  destruct Hp as [->|Hprop].
  - change (join_base "/") with "/". by apply no_double_sep_sep_name.
  - rewrite join_base_proper, str_app_assoc by done.
    apply no_double_sep_app; [done|by apply no_double_sep_sep_name|].
    by destruct Hprop.
Qed.

Lemma tree_files_clean t :
  ∀ p q, wf_tree t = true → clean p → q ∈ tree_files p t → no_double_sep q = true.
Proof.
  induction t as [|es IH] using tree_induction; intros p q Hwf Hp Hq.
  - apply list_elem_of_singleton in Hq as ->. by destruct Hp.
  - apply wf_tree_dir in Hwf as (_ & Hval & Hwf).
    apply elem_of_tree_files_dir in Hq as (e & He & Hq).
    eapply Forall_forall in IH, Hval, Hwf; try done.
    eapply IH; [done| |done]. by apply clean_join.
Qed.

Lemma tree_files_strictly_below es p q :
  wf_tree (Dir es) = true → proper p → q ∈ tree_files p (Dir es) →
  ∃ rest, q = p +:+ "/" +:+ rest.
Proof.
  intros Hwf Hp Hq. apply wf_tree_dir in Hwf as (_ & Hval & Hwf).
  apply elem_of_tree_files_dir in Hq as (e & He & Hq).
  eapply Forall_forall in Hval, Hwf; try done.
  pose proof (valid_name_no_sep _ Hval) as Hs.
  apply (tree_files_below e.2) in Hq; [|done|by apply join_proper].
  rewrite join_name, join_base_proper, str_app_assoc in Hq by done.
  destruct Hq as [->|[r ->]]; [by exists e.1|].
  exists (e.1 +:+ "/" +:+ r). by rewrite !str_app_assoc.
Qed.

(** X18: with the media root [/] the prefix is never applied.  The paths
    collected below [/] hold no [//], which is what [MediaRoot + "/"] is
    then, so on a directory tree every record keeps the absolute path as its
    key, whatever the prefix. *)
Theorem prefix_ignored_at_root fuel fs cwd es X :
  X ≠ "" →
  wf_tree (Dir es) = true →
  tree_at fs cwd "/" (Dir es) →
  depth (Dir es) ≤ fuel →
  ∃ out,
    get_paths fuel fs cwd "/" = Ok out
    ∧ build_pictures X "/" out = map (λ p, PDict [("key", PStr p)]) out.
Proof.
  intros HX Hwf Hat Hd. exists (tree_files "/" (Dir es)).
  split; [by apply (get_paths_tree fs cwd (Dir es))|].
  rewrite build_pictures_prefix by done. apply map_ext_in. intros p Hp.
  apply list_elem_of_In in Hp. unfold record. do 4 f_equal.
  change ("/" +:+ "/") with "//". rewrite str_replace_scan by done.
  apply replace_scan_none, no_double_sep_find.
  apply (tree_files_clean (Dir es) "/"); [done| |done]. split; [done|by left].
Qed.

(** X19: with a non-empty prefix and a media root other than [/], every key
    starts with the prefix.  On a directory tree each collected path is the
    media root, a separator and a rest, and its key is the prefix followed
    by that rest with the further occurrences replaced. *)
Theorem keys_start_with_prefix fuel fs cwd media_dir es X :
  X ≠ "" →
  proper media_dir →
  wf_tree (Dir es) = true →
  tree_at fs cwd media_dir (Dir es) →
  depth (Dir es) ≤ fuel →
  ∃ out,
    get_paths fuel fs cwd media_dir = Ok out
    ∧ ∀ p, p ∈ out →
        ∃ rest,
          p = media_dir +:+ "/" +:+ rest
          ∧ record X media_dir p
            = PDict [("key", PStr (X +:+ str_replace rest (media_dir +:+ "/") X))].
Proof.
  intros HX Hp Hwf Hat Hd. exists (tree_files media_dir (Dir es)).
  split; [by apply (get_paths_tree fs cwd (Dir es))|].
  intros p Hin. destruct (tree_files_strictly_below _ _ _ Hwf Hp Hin) as [rest ->].
  exists rest. split; [done|]. unfold record. do 4 f_equal.
  pose proof (media_root_sep_nonempty media_dir) as Hold.
  rewrite !str_replace_scan by done. rewrite <-str_app_assoc.
  by apply replace_scan_match.
Qed.

Lemma prefix_ignored_at_root_witness :
  ∃ out,
    get_paths 3 root_fs "/work" "/" = Ok out
    ∧ build_pictures "pics/" "/" out = map (λ p, PDict [("key", PStr p)]) out.
Proof.
  apply (prefix_ignored_at_root 3 root_fs "/work"
           [("a.jpg", File); ("work", Dir [("template.html", File)])] "pics/").
  - discriminate.
  - vm_compute. reflexivity.
  - simpl. repeat split; vm_compute; reflexivity.
  - simpl. lia.
Defined.

Lemma keys_start_with_prefix_witness :
  ∃ out,
    get_paths 5 demo_fs "/work" "/m" = Ok out
    ∧ ∀ p, p ∈ out →
        ∃ rest,
          p = "/m" +:+ "/" +:+ rest
          ∧ record "pics/" "/m" p
            = PDict [("key", PStr ("pics/" +:+ str_replace rest ("/m" +:+ "/") "pics/"))].
Proof.
  apply (keys_start_with_prefix 5 demo_fs "/work" "/m"
           [("a.jpg", File); ("sub", Dir [("b.jpg", File)])] "pics/").
  - discriminate.
  - split; [discriminate|reflexivity].
  - vm_compute. reflexivity.
  - simpl. repeat split; vm_compute; reflexivity.
  - simpl. lia.
Defined.

Example root_run :
  let '(r, w) := main demo_fetch demo_render 3 (Args (Some "/") 0 "pics/")
                   (World root_fs "/work" [] [] []) in
  r = Ok tt
  ∧ fs_read (inodes w) (cwd w) "/index.html" = Ok "T:</a.jpg></work/template.html>".
Proof. vm_compute. auto. Qed.
